(** * COCO bounding-box visualiser ([find_coco_json.py]): model and properties

    The script is a single Python module.  Its functions are embedded here as
    Rocq functions over

    - Python exceptions as an error monad ([result]),
    - Python dictionaries as insertion-ordered association lists ([PyDict]),
    - Python numbers as unbounded integers or binary64 floats ([num]),
    - the file system, the image decoder and matplotlib's global state as
      explicit arguments ([World], [PltState]).

    Annotation entities are typed as the interchange format describes them
    (integer ids, string names, a list of numbers for the bbox); the fields
    the script reads with [.get] are optional. *)

From Stdlib Require Import ZArith String Ascii List Lia Floats Uint63.
From Stdlib Require Import DecimalString.
From stdpp Require Import base option list sorting strings.

#[local] Set Warnings "-inexact-float".

Open Scope string_scope.
Open Scope list_scope.
Open Scope Z_scope.

(** ** Exceptions and the error monad *)

Inductive exn : Type :=
  | FileNotFoundError (msg : string)
  | RuntimeError (msg : string)
  | ValueError (msg : string)
  | KeyError (key : string)
  | ZeroDivisionError (msg : string)
  | StopIteration
  | OtherError (cls msg : string).

Inductive result (A : Type) : Type :=
  | Ok (a : A)
  | Raise (e : exn).
Arguments Ok {A} a.
Arguments Raise {A} e.

#[global] Instance result_ret : MRet result := fun A a => Ok a.
#[global] Instance result_bind : MBind result := fun A B k r =>
  match r with
  | Ok a => k a
  | Raise e => Raise e
  end.

(** ** Strings

    A [string] is a sequence of characters; each [ascii] stands for the code
    point of the same number. *)

Definition str_of_Z (z : Z) : string := NilZero.string_of_int (Z.to_int z).
Definition str_of_nat (n : nat) : string := NilZero.string_of_uint (Nat.to_uint n).

(** Python's [str.isspace] on the code points below 256. *)
Definition is_space (c : ascii) : bool :=
  let n := N_of_ascii c in
  ((9 <=? n) && (n <=? 13) || (28 <=? n) && (n <=? 32) || (n =? 133) || (n =? 160))%N.

Fixpoint lstrip_with (p : ascii -> bool) (s : string) : string :=
  match s with
  | EmptyString => EmptyString
  | String c s' => if p c then lstrip_with p s' else s
  end.

Fixpoint rstrip_with (p : ascii -> bool) (s : string) : string :=
  match s with
  | EmptyString => EmptyString
  | String c s' =>
      match rstrip_with p s' with
      | EmptyString => if p c then EmptyString else String c EmptyString
      | r => String c r
      end
  end.

(** [s.strip()] and [s.strip(chars)] for a one-character [chars]. *)
Definition strip_with (p : ascii -> bool) (s : string) : string :=
  rstrip_with p (lstrip_with p s).
Definition strip (s : string) : string := strip_with is_space s.
Definition strip_char (ch : ascii) (s : string) : string :=
  strip_with (Ascii.eqb ch) s.

(** [s.split(sep)] for a one-character separator: never an empty list. *)
Fixpoint split (sep : ascii) (s : string) : list string :=
  match s with
  | EmptyString => [EmptyString]
  | String c s' =>
      if Ascii.eqb c sep then EmptyString :: split sep s'
      else match split sep s' with
           | h :: t => String c h :: t
           | [] => [String c EmptyString]
           end
  end.

Definition first_char (s : string) : option ascii := String.get 0 s.

Fixpoint last_char (s : string) : option ascii :=
  match s with
  | EmptyString => None
  | String c EmptyString => Some c
  | String _ s' => last_char s'
  end.

(** No character of [s] satisfies [p]. *)
Fixpoint free_of (p : ascii -> bool) (s : string) : bool :=
  match s with
  | EmptyString => true
  | String c s' => negb (p c) && free_of p s'
  end.

(** [sep.join(l)] *)
Definition join (sep : string) (l : list string) : string := String.concat sep l.

(** [name] appears inside [msg]. *)
Definition occurs_in (name msg : string) : Prop :=
  exists pre post, msg = pre +:+ name +:+ post.

(** ** Locator: [find_coco_json]

    [jsons] is [list(folder.glob("*.json"))], each path given by its [name]
    (the glob is not recursive, so the path is [folder / name]). *)

Definition preferred_names : list string := ["annotations.json"; "coco.json"].

Definition is_preferred (name : string) : bool :=
  bool_decide (name ∈ preferred_names).

Definition no_json_msg (folder : string) : string :=
  "No .json file found in " +:+ folder.

Definition multiple_json_msg (jsons : list string) : string :=
  "Multiple .json files found: " +:+ join ", " jsons +:+ ". " +:+
  "Keep only one or rename the desired file to 'annotations.json'.".

(** [p] is the one candidate of [jsons] bearing a preferred name. *)
Definition sole_preferred (jsons : list string) (p : string) : Prop :=
  exists l1 l2, jsons = l1 ++ p :: l2 /\ p ∈ preferred_names /\
                forall q, q ∈ l1 ++ l2 -> q ∉ preferred_names.

Definition find_coco_json (folder : string) (jsons : list string) : result string :=
  if bool_decide (length jsons = 0%nat) then
    Raise (FileNotFoundError (no_json_msg folder))
  else if bool_decide (1 < length jsons)%nat then
    let preferred := List.filter is_preferred jsons in
    match preferred with
    | [p] => Ok p
    | _ => Raise (RuntimeError (multiple_json_msg jsons))
    end
  else
    match jsons with
    | p :: _ => Ok p
    | [] => Raise (FileNotFoundError (no_json_msg folder))
    end.

(** ** Python dictionaries

    Insertion-ordered: assigning to a key already present replaces the value
    in place and keeps the key's position; a new key goes to the end. *)

Module PyDict.
Section Dict.
Context {K V : Type} `{EqDecision K}.

Definition t : Type := list (K * V).

Definition empty : t := [].

Fixpoint get (d : t) (k : K) : option V :=
  match d with
  | [] => None
  | (k', v) :: d' => if decide (k' = k) then Some v else get d' k
  end.

(** [d.get(k, dflt)] *)
Definition get_default (d : t) (k : K) (dflt : V) : V :=
  default dflt (get d k).

(** [d[k] = v] *)
Fixpoint set (d : t) (k : K) (v : V) : t :=
  match d with
  | [] => [(k, v)]
  | (k', v') :: d' =>
      if decide (k' = k) then (k', v) :: d' else (k', v') :: set d' k v
  end.

Definition keys (d : t) : list K := d.*1.
Definition items (d : t) : list (K * V) := d.

(** [{key(x): x for x in l}] *)
Definition comprehension (key : V -> K) (l : list V) : t :=
  fold_left (fun d x => set d (key x) x) l empty.
End Dict.
Arguments t : clear implicits.
End PyDict.

(** ** Numbers: Python [int] and [float] *)

(** [float(z)] for [|z| <= 2^53], where the conversion is exact; image sizes
    and the constants of the script are far below.  Beyond that range Python
    rounds, and past the largest float raises [OverflowError]: the function
    is not meant there, and the properties that depend on a converted value
    bound their integers ([usable_dpi], [modest], [pixel_sized]). *)
Definition Z2F (z : Z) : float :=
  if z <? 0 then PrimFloat.opp (PrimFloat.of_uint63 (Uint63.of_Z (- z)))
  else PrimFloat.of_uint63 (Uint63.of_Z z).

Inductive num : Type :=
  | PInt (z : Z)
  | PFloat (f : float).

(** [v + c] and [v - c] for an integer literal [c] *)
Definition num_add_int (v : num) (c : Z) : num :=
  match v with
  | PInt z => PInt (z + c)
  | PFloat f => PFloat (PrimFloat.add f (Z2F c))
  end.

Definition num_sub_int (v : num) (c : Z) : num :=
  match v with
  | PInt z => PInt (z - c)
  | PFloat f => PFloat (PrimFloat.sub f (Z2F c))
  end.

(** [v > c] for an integer literal [c] *)
Definition num_gt_int (v : num) (c : Z) : bool :=
  match v with
  | PInt z => c <? z
  | PFloat f => PrimFloat.ltb (Z2F c) f
  end.

(** [v >= 0] *)
Definition num_nonneg (v : num) : bool :=
  match v with
  | PInt z => 0 <=? z
  | PFloat f => PrimFloat.leb 0 f
  end.

(** [max(c, v)]: the first argument unless the second is greater. *)
Definition max_int_num (c : Z) (v : num) : num :=
  if num_gt_int v c then v else PInt c.

Definition max_float (c v : float) : float :=
  if PrimFloat.ltb c v then v else c.

(** [a / b] on integers *)
Definition true_div (a b : Z) : result float :=
  if b =? 0 then Raise (ZeroDivisionError "division by zero")
  else Ok (PrimFloat.div (Z2F a) (Z2F b)).

(** ** Data model

    Only the fields the script reads are kept (an image's optional
    [width]/[height] metadata never is).  The fields read with [.get] are
    optional; those read with a subscript ([img["id"]], [img["file_name"]],
    [ann["image_id"]], [ann["bbox"]], [cat["id"]]) are fields of the record,
    with integer ids and a bbox that is a list of numbers.  A file with an
    entry that lacks one of them, or holds a value of another kind there,
    makes the script raise [KeyError] or [TypeError]; such files lie outside
    the model, and what is proved of the Indexer and the Renderer is proved
    of entries of this shape. *)

Record Image : Type := {
  img_id : Z;
  img_file_name : string
}.

Record Annotation : Type := {
  ann_id : option Z;            (* read with [ann.get('id', '')] *)
  ann_image_id : Z;
  ann_category_id : option Z;   (* read with [ann.get("category_id")] *)
  ann_bbox : list num
}.

Record Category : Type := {
  cat_id : Z;
  cat_name : option string      (* read with [.get("name", str(cat_id))] *)
}.

(** The parsed annotation file: a dictionary whose three sections may each be
    present or not; keys the script never reads are kept by name only. *)
Record Coco : Type := {
  images : option (list Image);
  annotations : option (list Annotation);
  categories : option (list Category);
  other_keys : list string
}.

(** [key in data] *)
Definition has_key (data : Coco) (key : string) : bool :=
  if String.eqb key "images" then bool_decide (is_Some (images data))
  else if String.eqb key "annotations" then bool_decide (is_Some (annotations data))
  else if String.eqb key "categories" then bool_decide (is_Some (categories data))
  else bool_decide (key ∈ other_keys data).

(** [data[key]] for the three sections *)
Definition section {A} (key : string) (s : option A) : result A :=
  match s with
  | Some l => Ok l
  | None => Raise (KeyError key)
  end.

(** ** Loader: [load_coco] *)

Definition required_keys : list string := ["images"; "annotations"; "categories"].

Definition missing_msg (key : string) : string :=
  "COCO file missing '" +:+ key +:+ "' section".

Fixpoint check_keys (keys : list string) (data : Coco) : result unit :=
  match keys with
  | [] => Ok ()
  | key :: rest =>
      if negb (has_key data key) then Raise (ValueError (missing_msg key))
      else check_keys rest data
  end.

(** The body of [load_coco] after [json.load]. *)
Definition validate_coco (data : Coco) : result Coco :=
  _ ← check_keys required_keys data;
  Ok data.

(** [read_json coco_path] is [open] followed by [json.load]. *)
Definition load_coco (read_json : string -> result Coco) (coco_path : string)
  : result Coco :=
  data ← read_json coco_path;
  validate_coco data.

(** ** Indexer: [build_indices] *)

Definition images_index (l : list Image) : PyDict.t Z Image :=
  PyDict.comprehension img_id l.

Definition categories_index (l : list Category) : PyDict.t Z Category :=
  PyDict.comprehension cat_id l.

(** [anns_by_image[ann["image_id"]].append(ann)] on a [defaultdict(list)] *)
Definition append_ann (d : PyDict.t Z (list Annotation)) (ann : Annotation)
  : PyDict.t Z (list Annotation) :=
  let k := ann_image_id ann in
  PyDict.set d k (PyDict.get_default d k [] ++ [ann]).

Definition anns_index (l : list Annotation) : PyDict.t Z (list Annotation) :=
  fold_left append_ann l PyDict.empty.

Definition build_indices (coco : Coco)
  : result (PyDict.t Z Image * PyDict.t Z (list Annotation) * PyDict.t Z Category) :=
  imgs ← section "images" (images coco);
  let images_by_id := images_index imgs in
  anns ← section "annotations" (annotations coco);
  let anns_by_image := anns_index anns in
  cats ← section "categories" (categories coco);
  let categories_by_id := categories_index cats in
  Ok (images_by_id, anns_by_image, categories_by_id).

(** ** Color Assigner: [category_color_map] *)

(** [[f"C{i}" for i in range(10)]] *)
Definition fallback_palette : list string :=
  map (fun i => "C" +:+ str_of_nat i) (seq 0 10).

(** [itertools.cycle]: the elements still to yield in this round, and the
    saved copy the next round starts from. *)
Record cycle_iter : Type := {
  pending : list string;
  saved : list string
}.

Definition cycle (colors : list string) : cycle_iter :=
  {| pending := colors; saved := colors |}.

Definition next (cyc : cycle_iter) : result (string * cycle_iter) :=
  match pending cyc with
  | c :: rest => Ok (c, {| pending := rest; saved := saved cyc |})
  | [] =>
      match saved cyc with
      | c :: rest => Ok (c, {| pending := rest; saved := saved cyc |})
      | [] => Raise StopIteration
      end
  end.

(** [sorted(l)] on integers *)
Definition sorted (l : list Z) : list Z := merge_sort Z.le l.

(** [colors] as read from [plt.rcParams], replaced by the fallback palette
    when falsy ([None] or empty). *)
Definition palette (rc_colors : option (list string)) : list string :=
  match rc_colors with
  | Some (c :: cs) => c :: cs
  | _ => fallback_palette
  end.

Fixpoint assign_colors (cids : list Z) (cyc : cycle_iter)
    (mapping : PyDict.t Z string) : result (PyDict.t Z string) :=
  match cids with
  | [] => Ok mapping
  | cid :: rest =>
      '(c, cyc') ← next cyc;
      assign_colors rest cyc' (PyDict.set mapping cid c)
  end.

Definition category_color_map (rc_colors : option (list string))
    (categories_by_id : PyDict.t Z Category) : result (PyDict.t Z string) :=
  let colors := palette rc_colors in
  let cyc := cycle colors in
  assign_colors (sorted (PyDict.keys categories_by_id)) cyc PyDict.empty.

(** ** Renderer: [draw_image_with_bboxes] *)

(** A decoded image; the script reads only its size. *)
Record PILImage : Type := {
  im_width : Z;
  im_height : Z
}.

Record Rectangle : Type := {
  rect_xy : num * num;
  rect_width : num;
  rect_height : num;
  rect_linewidth : float;
  rect_edgecolor : string;
  rect_facecolor : string
}.

Record FancyBboxPatch : Type := {
  tag_xy : num * num;
  tag_width : Z;
  tag_height : Z;
  tag_boxstyle : string;
  tag_linewidth : Z;
  tag_facecolor : string;
  tag_alpha : float
}.

Record Text : Type := {
  text_x : num;
  text_y : num;
  text_s : string;
  text_fontsize : Z;
  text_color : string;
  text_va : string;
  text_ha : string;
  text_fontweight : string
}.

Inductive artist : Type :=
  | Patch (r : Rectangle)
  | Tag (t : FancyBboxPatch)
  | Label (t : Text).

Record Figure : Type := {
  fig_number : nat;
  fig_figsize : float * float;
  fig_dpi : Z;
  fig_image : option PILImage;     (* [ax.imshow(im)] *)
  fig_axis_off : bool;
  fig_artists : list artist;       (* in the order they are added *)
  fig_suptitle : option string
}.

(** matplotlib's global state: the open figures, by number. *)
Definition PltState : Type := list Figure.

(** [plt.figure(figsize=..., dpi=...)]: a new figure whose number is one more
    than the largest open one.  How matplotlib itself judges its arguments is
    not part of the script; the properties below take a positive [dpi]. *)
Definition next_fig_number (st : PltState) : nat :=
  S (foldr Nat.max 0%nat (map fig_number st)).

Definition plt_figure (st : PltState) (figsize : float * float) (dpi : Z)
  : Figure * PltState :=
  let fig := {| fig_number := next_fig_number st; fig_figsize := figsize;
                fig_dpi := dpi; fig_image := None; fig_axis_off := false;
                fig_artists := []; fig_suptitle := None |} in
  (fig, st ++ [fig]).

(** A figure is a mutable object: a change to it shows in the registry. *)
Definition store (st : PltState) (fig : Figure) : PltState :=
  map (fun f => if bool_decide (fig_number f = fig_number fig) then fig else f) st.

Definition plt_close (st : PltState) (fig : Figure) : PltState :=
  List.filter (fun f => negb (bool_decide (fig_number f = fig_number fig))) st.

Definition open_failed_msg (img_path e : string) : string :=
  "Failed to open image '" +:+ img_path +:+ "': " +:+ e.

(** [x, y, w, h = ann["bbox"]] *)
Definition unpack4 (bbox : list num) : result (num * num * num * num) :=
  match bbox with
  | [x; y; w; h] => Ok (x, y, w, h)
  | _ :: _ :: _ :: _ :: _ :: _ =>
      Raise (ValueError "too many values to unpack (expected 4)")
  | _ =>
      Raise (ValueError ("not enough values to unpack (expected 4, got "
                         +:+ str_of_nat (length bbox) +:+ ")"))
  end.

(** [str(cat_id)] *)
Definition str_of_cat_id (cat_id : option Z) : string :=
  match cat_id with
  | Some z => str_of_Z z
  | None => "None"
  end.

(** [color_map.get(cat_id, "white")] *)
Definition color_of (color_map : PyDict.t Z string) (cat_id : option Z) : string :=
  match cat_id with
  | Some z => PyDict.get_default color_map z "white"
  | None => "white"
  end.

(** [categories_by_id.get(cat_id, {}).get("name", str(cat_id))] *)
Definition cat_name_of (categories_by_id : PyDict.t Z Category)
    (cat_id : option Z) : string :=
  match cat_id ≫= PyDict.get categories_by_id with
  | Some cat => default (str_of_cat_id cat_id) (cat_name cat)
  | None => str_of_cat_id cat_id
  end.

(** [f"{cat_name}#{ann.get('id', '')}".strip("#")] *)
Definition label_of (cat_name : string) (id : option Z) : string :=
  strip_char "#" (cat_name +:+ "#" +:+ from_option str_of_Z "" id).

Definition linewidth_of (im : PILImage) : float :=
  max_float 1.5 (PrimFloat.mul (Z2F (Z.min (im_width im) (im_height im))) 0.002).

Definition label_width (label : string) : Z :=
  Z.max 40 (Z.of_nat (String.length label) * 7).

(** One turn of the loop over [anns]: the three artists added to the axes.
    The script hands the numbers of the bbox to the drawing library as they
    are; the library turns them into floats when a patch is added, which
    fails with [OverflowError] for an integer no float holds.  The model
    stops at the script's own steps: the properties below that assert a
    figure take [drawable] annotations. *)
Definition draw_ann (im : PILImage) (categories_by_id : PyDict.t Z Category)
    (color_map : PyDict.t Z string) (ann : Annotation) : result (list artist) :=
  '(x, y, w, h) ← unpack4 (ann_bbox ann);
  let cat_id := ann_category_id ann in
  let color := color_of color_map cat_id in
  let rect := {| rect_xy := (x, y); rect_width := w; rect_height := h;
                 rect_linewidth := linewidth_of im;
                 rect_edgecolor := color; rect_facecolor := "none" |} in
  let cat_name := cat_name_of categories_by_id cat_id in
  let label := label_of cat_name (ann_id ann) in
  let txt_bg := {| tag_xy := (x, max_int_num 0 (num_sub_int y 18));
                   tag_width := label_width label; tag_height := 18;
                   tag_boxstyle := "round,pad=0.2,rounding_size=2";
                   tag_linewidth := 0; tag_facecolor := color;
                   tag_alpha := 0.8 |} in
  let txt := {| text_x := num_add_int x 4;
                text_y := max_int_num 12 (num_sub_int y 4);
                text_s := label; text_fontsize := 9; text_color := "black";
                text_va := "center"; text_ha := "left";
                text_fontweight := "bold" |} in
  Ok [Patch rect; Tag txt_bg; Label txt].

Fixpoint draw_anns (im : PILImage) (categories_by_id : PyDict.t Z Category)
    (color_map : PyDict.t Z string) (anns : list Annotation)
  : result (list artist) :=
  match anns with
  | [] => Ok []
  | ann :: rest =>
      arts ← draw_ann im categories_by_id color_map ann;
      more ← draw_anns im categories_by_id color_map rest;
      Ok (arts ++ more)
  end.

(** [open_image img_path] is [Image.open(img_path).convert("RGB")]: the decoded
    image, or the text of the exception it raised. *)
Definition draw_image_with_bboxes (open_image : string -> string + PILImage)
    (st : PltState) (img_path : string) (anns : list Annotation)
    (categories_by_id : PyDict.t Z Category) (color_map : PyDict.t Z string)
    (dpi : Z) : result (Figure * PltState) :=
  im ← match open_image img_path with
       | inr im => Ok im
       | inl e => Raise (RuntimeError (open_failed_msg img_path e))
       end;
  fw ← true_div (im_width im) dpi;
  fh ← true_div (im_height im) dpi;
  let '(fig, st) := plt_figure st (fw, fh) dpi in
  let fig := {| fig_number := fig_number fig; fig_figsize := fig_figsize fig;
                fig_dpi := fig_dpi fig; fig_image := Some im;
                fig_axis_off := true; fig_artists := [];
                fig_suptitle := None |} in
  arts ← draw_anns im categories_by_id color_map anns;
  let fig := {| fig_number := fig_number fig; fig_figsize := fig_figsize fig;
                fig_dpi := fig_dpi fig; fig_image := fig_image fig;
                fig_axis_off := fig_axis_off fig; fig_artists := arts;
                fig_suptitle := None |} in
  Ok (fig, store st fig).

(** What a figure holds, by kind of artist and in the order of adding. *)
Fixpoint rectangles (arts : list artist) : list Rectangle :=
  match arts with
  | [] => []
  | Patch r :: rest => r :: rectangles rest
  | _ :: rest => rectangles rest
  end.

Fixpoint tags (arts : list artist) : list FancyBboxPatch :=
  match arts with
  | [] => []
  | Tag t :: rest => t :: tags rest
  | _ :: rest => tags rest
  end.

Fixpoint labels (arts : list artist) : list Text :=
  match arts with
  | [] => []
  | Label t :: rest => t :: labels rest
  | _ :: rest => labels rest
  end.

(** The numbers the properties of the Renderer speak of: integers that
    binary64 holds exactly (up to 2^53 either way) and floats within the same
    bounds.  matplotlib turns every number it is handed into a binary64 and
    fails on an integer too large for one; what it does outside these bounds
    is not part of the script. *)
Definition pixel_sized (v : num) : Prop :=
  match v with
  | PInt z => - 9007199254740992 <= z <= 9007199254740992
  | PFloat f =>
      PrimFloat.leb (-9007199254740992) f = true /\
      PrimFloat.leb f 9007199254740992 = true
  end.

(** An annotation the Renderer can draw: a bbox of four such numbers. *)
Definition drawable (ann : Annotation) : Prop :=
  length (ann_bbox ann) = 4%nat /\ Forall pixel_sized (ann_bbox ann).

(** A resolution the Renderer divides by: positive, and a binary64 holds it
    exactly. *)
Definition usable_dpi (dpi : Z) : Prop := 0 < dpi <= 9007199254740992.

(** An image whose smaller side is at most 100000 pixels. *)
Definition modest (im : PILImage) : Prop :=
  0 <= Z.min (im_width im) (im_height im) <= 100000.

(** [lw] is the larger of 1.5 and 0.002 times the smaller side of [im]: one
    of the two, and not below either. *)
Definition thickness_for (im : PILImage) (lw : float) : Prop :=
  let scaled := PrimFloat.mul (Z2F (Z.min (im_width im) (im_height im))) 0.002 in
  PrimFloat.leb 1.5 lw = true /\ PrimFloat.leb scaled lw = true /\
  (lw = 1.5%float \/ lw = scaled).

(** The outline the Renderer owes an annotation on an image [im]: placed and
    sized by the bbox, unfilled, in the color the map gives the category id or
    white, its thickness the larger of 1.5 and 0.002 times the smaller image
    side. *)
Definition outline_of (im : PILImage) (color_map : PyDict.t Z string)
    (ann : Annotation) (r : Rectangle) : Prop :=
  exists x y w h,
    ann_bbox ann = [x; y; w; h] /\
    rect_xy r = (x, y) /\ rect_width r = w /\ rect_height r = h /\
    rect_facecolor r = "none" /\
    rect_edgecolor r
      = from_option id "white" (ann_category_id ann ≫= PyDict.get color_map) /\
    thickness_for im (rect_linewidth r).

(** The name part of a label: the category's name, or the category id as
    text when the category is not listed or has no name. *)
Definition name_part (categories_by_id : PyDict.t Z Category)
    (ann : Annotation) : string :=
  match ann_category_id ann with
  | None => "None"
  | Some cid =>
      match PyDict.get categories_by_id cid with
      | Some {| cat_name := Some name |} => name
      | _ => str_of_Z cid
      end
  end.

(** The id part of a label: the annotation id in decimal, or nothing. *)
Definition id_part (ann : Annotation) : string :=
  match ann_id ann with
  | Some z => str_of_Z z
  | None => ""
  end.

(** The two parts joined by "#", the separator left out when a part is
    empty. *)
Definition joined_parts (name ids : string) : string :=
  if String.eqb name "" then ids
  else if String.eqb ids "" then name
  else name +:+ "#" +:+ ids.

(** What the script writes on a label: the parts joined by "#", stripped of
    every "#" at either end. *)
Definition label_text (categories_by_id : PyDict.t Z Category)
    (ann : Annotation) : string :=
  strip_char "#" (name_part categories_by_id ann +:+ "#" +:+ id_part ann).

(** The tag the Renderer owes an annotation: filled in the annotation's
    color, 18 high and wide enough for 7 units per character of the label
    (at least 40), its corner 18 above the box's top-left corner but never
    above the top edge. *)
Definition tag_of (categories_by_id : PyDict.t Z Category)
    (color_map : PyDict.t Z string) (ann : Annotation) (t : FancyBboxPatch) : Prop :=
  exists x y w h,
    ann_bbox ann = [x; y; w; h] /\
    fst (tag_xy t) = x /\
    snd (tag_xy t) = max_int_num 0 (num_sub_int y 18) /\
    num_nonneg (snd (tag_xy t)) = true /\
    (num_gt_int (num_sub_int y 18) 0 = true -> snd (tag_xy t) = num_sub_int y 18) /\
    tag_height t = 18 /\
    tag_width t
      = Z.max 40 (Z.of_nat (String.length (label_text categories_by_id ann)) * 7) /\
    Z.of_nat (String.length (label_text categories_by_id ann)) * 7 <= tag_width t /\
    tag_facecolor t
      = from_option id "white" (ann_category_id ann ≫= PyDict.get color_map).

(** ** Orchestrator: [main] *)

Record Args : Type := {
  arg_folder : string;
  arg_show : bool;
  arg_save : option string;
  arg_subset : option string;
  arg_dpi : Z
}.

(** What the script reads from outside: the file system, the JSON parser, the
    image decoder, matplotlib's configuration, and [pathlib]'s path algebra. *)
Record World : Type := {
  is_directory : string -> bool;           (* [exists() and is_dir()] *)
  glob_json : string -> list string;       (* names matching [*.json] *)
  read_json : string -> result Coco;       (* [open] and [json.load] *)
  rc_colors : option (list string);        (* the prop cycle's colors *)
  path_exists : string -> bool;
  open_image : string -> string + PILImage;
  mkdir : string -> result unit;
  savefig : string -> result unit;
  blocking_show : bool;                    (* windows closed before [show] returns *)
  joinpath : string -> string -> string;   (* [a / b] *)
  stem : string -> string                  (* [Path(name).stem] *)
}.

Inductive event : Type :=
  | Stdout (line : string)
  | Stderr (line : string)
  | Mkdir (path : string)
  | Saved (path : string) (fig : Figure)
  | Shown (figs : list Figure).

Record RunState : Type := {
  log : list event;                 (* oldest first *)
  plt : PltState;
  processed : nat;
  missing_images : list string
}.

Definition emit (st : RunState) (e : event) : RunState :=
  {| log := log st ++ [e]; plt := plt st; processed := processed st;
     missing_images := missing_images st |}.

Definition with_plt (st : RunState) (p : PltState) : RunState :=
  {| log := log st; plt := p; processed := processed st;
     missing_images := missing_images st |}.

(** How a run ends. *)
Inductive termination : Type :=
  | Returned
  | SysExit (code : Z)
  | Uncaught (e : exn).

Definition exit_code (t : termination) : Z :=
  match t with
  | Returned => 0
  | SysExit c => c
  | Uncaught _ => 1
  end.

(** [{name.strip() for name in subset.split(",") if name.strip()}]; only
    membership and emptiness of the set are ever observed. *)
Definition parse_subset (subset : string) : list string :=
  map strip (List.filter (fun name => negb (String.eqb (strip name) ""))
                         (split "," subset)).

Definition allowed_names_of (subset : option string) : option (list string) :=
  match subset with
  | Some s => if String.eqb s "" then None else Some (parse_subset s)
  | None => None
  end.

(** [allowed_names and file_name not in allowed_names] *)
Definition filtered_out (allowed_names : option (list string))
    (file_name : string) : bool :=
  match allowed_names with
  | None | Some [] => false
  | Some names => negb (bool_decide (file_name ∈ names))
  end.

Definition title_of (file_name : string) (n : nat) : string :=
  file_name +:+ "  |  " +:+ str_of_nat n +:+ " bbox" +:+
  (if bool_decide (n ≠ 1%nat) then "es" else "").

Definition set_suptitle (fig : Figure) (title : string) : Figure :=
  {| fig_number := fig_number fig; fig_figsize := fig_figsize fig;
     fig_dpi := fig_dpi fig; fig_image := fig_image fig;
     fig_axis_off := fig_axis_off fig; fig_artists := fig_artists fig;
     fig_suptitle := Some title |}.

Section Run.
Variable w : World.
Variable args : Args.
Variable anns_by_image : PyDict.t Z (list Annotation).
Variable categories_by_id : PyDict.t Z Category.
Variable color_map : PyDict.t Z string.
Variable allowed_names : option (list string).

(** One turn of the loop over [images_by_id.items()]. *)
Definition process_image (st : RunState) (item : Z * Image)
  : RunState * result unit :=
  let '(img_id, img) := item in
  let file_name := img_file_name img in
  if filtered_out allowed_names file_name then (st, Ok ())
  else
    let img_path := joinpath w (arg_folder args) file_name in
    if negb (path_exists w img_path) then
      ({| log := log st; plt := plt st; processed := processed st;
          missing_images := missing_images st ++ [file_name] |}, Ok ())
    else
      let anns := PyDict.get_default anns_by_image img_id [] in
      match draw_image_with_bboxes (open_image w) (plt st) img_path anns
              categories_by_id color_map (arg_dpi args) with
      | Raise e => (st, Raise e)
      | Ok (fig, p) =>
          let fig := set_suptitle fig (title_of file_name (length anns)) in
          let st := with_plt st (store p fig) in
          let saved :=
            match arg_save args with
            | Some dir =>
                let out_path :=
                  joinpath w dir (stem w file_name +:+ "__overlay.png") in
                match savefig w out_path with
                | Raise e => (st, Raise e)
                | Ok _ =>
                    (emit (emit st (Saved out_path fig))
                          (Stdout ("Saved: " +:+ out_path)), Ok ())
                end
            | None => (st, Ok ())
            end in
          match saved with
          | (st, Raise e) => (st, Raise e)
          | (st, Ok _) =>
              let st :=
                if arg_show args then
                  with_plt (emit st (Shown (plt st)))
                           (if blocking_show w then [] else plt st)
                else with_plt st (plt_close (plt st) fig) in
              ({| log := log st; plt := plt st;
                  processed := S (processed st);
                  missing_images := missing_images st |}, Ok ())
          end
      end.

Fixpoint process_images (st : RunState) (items : list (Z * Image))
  : RunState * result unit :=
  match items with
  | [] => (st, Ok ())
  | item :: rest =>
      match process_image st item with
      | (st', Ok _) => process_images st' rest
      | (st', Raise e) => (st', Raise e)
      end
  end.
End Run.

Definition missing_header : string :=
  "Warning: the following image files listed in COCO were not found in the folder:".

Definition nothing_processed_msg : string :=
  "No images were processed. Check your --subset filter or that image files exist.".

Definition report (st : RunState) : RunState :=
  let st :=
    match missing_images st with
    | [] => st
    | _ =>
        fold_left (fun st nm => emit st (Stderr ("  - " +:+ nm)))
                  (missing_images st) (emit st (Stderr missing_header))
    end in
  if bool_decide (processed st = 0%nat) then emit st (Stderr nothing_processed_msg)
  else st.

(** Locator, Loader, Indexer and Color Assigner, run once. *)
Definition init_pipeline (w : World) (args : Args)
  : result (PyDict.t Z Image * PyDict.t Z (list Annotation) *
            PyDict.t Z Category * PyDict.t Z string) :=
  let folder := arg_folder args in
  coco_path ← find_coco_json folder (glob_json w folder);
  coco ← load_coco (read_json w) (joinpath w folder coco_path);
  '(images_by_id, anns_by_image, categories_by_id) ← build_indices coco;
  color_map ← category_color_map (rc_colors w) categories_by_id;
  Ok (images_by_id, anns_by_image, categories_by_id, color_map).

Definition initial_state (p : PltState) : RunState :=
  {| log := []; plt := p; processed := 0; missing_images := [] |}.

Definition folder_error_msg (folder : string) : string :=
  "Error: folder '" +:+ folder +:+ "' does not exist or is not a directory.".

(** [args.save.mkdir(parents=True, exist_ok=True)] when [--save] is given *)
Definition prepare_save (w : World) (args : Args) (st : RunState)
  : RunState * result unit :=
  match arg_save args with
  | Some dir =>
      match mkdir w dir with
      | Ok _ => (emit st (Mkdir dir), Ok ())
      | Raise e => (st, Raise e)
      end
  | None => (st, Ok ())
  end.

Definition main (w : World) (args : Args) (p : PltState)
  : RunState * termination :=
  let st := initial_state p in
  let folder := arg_folder args in
  if negb (is_directory w folder) then
    (emit st (Stderr (folder_error_msg folder)), SysExit 1)
  else
    match init_pipeline w args with
    | Raise e => (st, Uncaught e)
    | Ok (images_by_id, anns_by_image, categories_by_id, color_map) =>
        let allowed_names := allowed_names_of (arg_subset args) in
        match prepare_save w args st with
        | (st, Raise e) => (st, Uncaught e)
        | (st, Ok _) =>
            match process_images w args anns_by_image categories_by_id
                    color_map allowed_names st (PyDict.items images_by_id) with
            | (st, Raise e) => (st, Uncaught e)
            | (st, Ok _) => (report st, Returned)
            end
        end
    end.

(** The file names of the images that pass the filter, in order. *)
Definition eligible_names (allowed_names : option (list string))
    (items : list (Z * Image)) : list string :=
  map (fun item => img_file_name item.2)
      (List.filter
         (fun item => negb (filtered_out allowed_names (img_file_name item.2)))
         items).

(** The images whose file name is one of [names], in order. *)
Definition selected (names : list string) (items : list (Z * Image))
  : list (Z * Image) :=
  List.filter (fun item => bool_decide (img_file_name item.2 ∈ names)) items.

Definition with_subset (args : Args) (subset : option string) : Args :=
  {| arg_folder := arg_folder args; arg_show := arg_show args;
     arg_save := arg_save args; arg_subset := subset; arg_dpi := arg_dpi args |}.

(** Every character of [s] is whitespace. *)
Definition blank (s : string) : Prop :=
  free_of (fun c => negb (is_space c)) s = true.

(** ** What a run leaves behind *)

(** [(folder / file_name).exists()] *)
Definition present (w : World) (args : Args) (file_name : string) : bool :=
  path_exists w (joinpath w (arg_folder args) file_name).

(** The eligible images whose file exists, and those whose file does not. *)
Definition rendered_names (w : World) (args : Args)
    (allowed_names : option (list string)) (items : list (Z * Image))
  : list string :=
  List.filter (present w args) (eligible_names allowed_names items).

Definition missing_names (w : World) (args : Args)
    (allowed_names : option (list string)) (items : list (Z * Image))
  : list string :=
  List.filter (fun file_name => negb (present w args file_name))
              (eligible_names allowed_names items).

(** [save / f"{Path(file_name).stem}__overlay.png"] *)
Definition overlay_path (w : World) (dir file_name : string) : string :=
  joinpath w dir (stem w file_name +:+ "__overlay.png").

Fixpoint saved_paths (l : list event) : list string :=
  match l with
  | [] => []
  | Saved path _ :: rest => path :: saved_paths rest
  | _ :: rest => saved_paths rest
  end.

Fixpoint stdout_lines (l : list event) : list string :=
  match l with
  | [] => []
  | Stdout line :: rest => line :: stdout_lines rest
  | _ :: rest => stdout_lines rest
  end.

Fixpoint stderr_lines (l : list event) : list string :=
  match l with
  | [] => []
  | Stderr line :: rest => line :: stderr_lines rest
  | _ :: rest => stderr_lines rest
  end.

(** An image the loop can get past: if it is eligible and present, it
    decodes, each of its annotations has a four-number bbox, and its overlay
    can be written when one is asked for. *)
Definition renderable (w : World) (args : Args)
    (anns_by_image : PyDict.t Z (list Annotation))
    (allowed_names : option (list string)) (item : Z * Image) : Prop :=
  let file_name := img_file_name item.2 in
  filtered_out allowed_names file_name = false ->
  present w args file_name = true ->
  (exists im, open_image w (joinpath w (arg_folder args) file_name) = inr im) /\
  Forall (fun ann => length (ann_bbox ann) = 4%nat)
         (PyDict.get_default anns_by_image item.1 []) /\
  (forall dir, arg_save args = Some dir ->
               savefig w (overlay_path w dir file_name) = Ok ()).

(** An image the loop is sure to get past: [renderable], and the numbers of
    its bboxes are of a size the drawing library holds exactly. *)
Definition surely_renderable (w : World) (args : Args)
    (anns_by_image : PyDict.t Z (list Annotation))
    (allowed_names : option (list string)) (item : Z * Image) : Prop :=
  let file_name := img_file_name item.2 in
  renderable w args anns_by_image allowed_names item /\
  (filtered_out allowed_names file_name = false ->
   present w args file_name = true ->
   Forall drawable (PyDict.get_default anns_by_image item.1 [])).

(** The lines the closing report writes to the error stream. *)
Definition report_lines (missing : list string) (processed : nat) : list string :=
  match missing with
  | [] => []
  | _ => missing_header :: map (fun nm => "  - " +:+ nm) missing
  end ++
  (if bool_decide (processed = 0%nat) then [nothing_processed_msg] else []).

(** The outline, tag and text of one annotation as they sit on its bbox: the
    outline at the box's corner, the tag starting at the box's left edge, the
    text 4 to the right of it and 4 above the box's top but not above 12. *)
Definition placed (categories_by_id : PyDict.t Z Category) (ann : Annotation)
    (trio : Rectangle * FancyBboxPatch * Text) : Prop :=
  let '(r, t, l) := trio in
  exists x y w h,
    ann_bbox ann = [x; y; w; h] /\
    rect_xy r = (x, y) /\ fst (tag_xy t) = x /\
    text_x l = num_add_int x 4 /\
    text_y l = max_int_num 12 (num_sub_int y 4) /\
    text_color l = "black" /\
    text_s l = label_text categories_by_id ann.

(** [test] holds of the [count] integers from [start] on. *)
Fixpoint all_from (test : Z -> bool) (start : Z) (count : nat) : bool :=
  match count with
  | O => true
  | S k => test start && all_from test (start + 1) k
  end.

(** Whether [max(1.5, m * 0.002)] keeps its first argument. *)
Definition keeps_minimum (m : Z) : bool :=
  negb (PrimFloat.ltb 1.5 (PrimFloat.mul (Z2F m) 0.002)).

(** The first key of [keys] that [data] lacks is [key]. *)
Definition first_missing (keys : list string) (data : Coco) (key : string) : Prop :=
  exists before after,
    keys = before ++ key :: after /\ has_key data key = false /\
    forall k, k ∈ before -> has_key data k = true.

(** The ids of [l] in order, each at the place of its first occurrence. *)
Definition first_occurrences (l : list Z) : list Z :=
  reverse (remove_dups (reverse l)).

(** ** A sample data set

    Three images, three annotations (one of an unlisted category, one without
    an id), three categories listed out of order, and a folder holding two
    JSON files of which one has a preferred name. *)

Definition demo_images : list Image :=
  [ {| img_id := 1; img_file_name := "a.png" |};
    {| img_id := 2; img_file_name := "b.png" |};
    {| img_id := 3; img_file_name := "c.png" |} ].

Definition demo_anns : list Annotation :=
  [ {| ann_id := Some 10; ann_image_id := 2; ann_category_id := Some 5;
       ann_bbox := [PInt 10; PInt 5; PInt 30; PInt 40] |};
    {| ann_id := Some 11; ann_image_id := 1; ann_category_id := Some 1;
       ann_bbox := [PFloat 10.5; PFloat 50; PInt 30; PInt 40] |};
    {| ann_id := None; ann_image_id := 2; ann_category_id := Some 9;
       ann_bbox := [PInt 1; PInt 2; PInt 3; PInt 4] |} ].

Definition demo_cats : list Category :=
  [ {| cat_id := 5; cat_name := Some "dog" |};
    {| cat_id := 1; cat_name := Some "#cat" |};
    {| cat_id := 3; cat_name := None |} ].

Definition demo_coco : Coco :=
  {| images := Some demo_images; annotations := Some demo_anns;
     categories := Some demo_cats; other_keys := ["info"] |}.

(** [Path(name).stem] for a name without a directory part: the name up to
    its last dot, when that dot is neither its first nor its last character. *)
Fixpoint last_dot (s : string) : option nat :=
  match s with
  | "" => None
  | String c rest =>
      match last_dot rest with
      | Some i => Some (S i)
      | None => if Ascii.eqb c "." then Some 0%nat else None
      end
  end.

Definition name_stem (name : string) : string :=
  match last_dot name with
  | Some i =>
      if bool_decide (0 < i < String.length name - 1)%nat
      then substring 0 i name else name
  | None => name
  end.

(** The files in [undecodable] exist but do not decode; those in [absent] do
    not exist. *)
Definition demo_world (undecodable absent : list string) : World :=
  {| is_directory := fun d => String.eqb d "data";
     glob_json := fun _ => ["coco.json"; "x.json"];
     read_json := fun _ => Ok demo_coco;
     rc_colors := Some ["red"; "green"];
     path_exists := fun p => negb (bool_decide (p ∈ absent));
     open_image := fun p =>
       if bool_decide (p ∈ undecodable) then inl "cannot identify image file"
       else inr {| im_width := 640; im_height := 480 |};
     mkdir := fun _ => Ok ();
     savefig := fun _ => Ok ();
     blocking_show := true;
     joinpath := fun a b => a +:+ "/" +:+ b;
     stem := name_stem |}.

Definition demo_args (subset : option string) : Args :=
  {| arg_folder := "data"; arg_show := false; arg_save := None;
     arg_subset := subset; arg_dpi := 120 |}.

(** * Properties *)

(** ** Strings *)

Example name_stem_cases :
  name_stem "a.png" = "a" /\ name_stem "a.tar.gz" = "a.tar" /\
  name_stem ".hidden" = ".hidden" /\ name_stem "a." = "a." /\
  name_stem "plain" = "plain".
Proof. repeat split. Qed.

Lemma append_cons (c : ascii) (a b : string) :
  String c a +:+ b = String c (a +:+ b).
Proof. reflexivity. Qed.

Lemma append_assoc (a b c : string) : (a +:+ b) +:+ c = a +:+ (b +:+ c).
Proof.
  induction a as [|x a IH]; [reflexivity|].
  rewrite !append_cons. now rewrite IH.
Qed.

Lemma append_nil_r (a : string) : a +:+ "" = a.
Proof.
  induction a as [|x a IH]; [reflexivity|].
  rewrite append_cons. now rewrite IH.
Qed.

Lemma occurs_in_refl (s : string) : occurs_in s s.
Proof. exists "", "". rewrite append_nil_r. reflexivity. Qed.

Lemma occurs_in_app_l (name a b : string) :
  occurs_in name a -> occurs_in name (a +:+ b).
Proof.
  intros (pre & post & ->). exists pre, (post +:+ b).
  now rewrite !append_assoc.
Qed.

Lemma occurs_in_app_r (name a b : string) :
  occurs_in name b -> occurs_in name (a +:+ b).
Proof.
  intros (pre & post & ->). exists (a +:+ pre), post.
  now rewrite !append_assoc.
Qed.

Lemma join_occurs (sep name : string) (l : list string) :
  name ∈ l -> occurs_in name (join sep l).
Proof.
  unfold join. induction l as [|x l IH]; intros Hin.
  - inversion Hin.
  - apply elem_of_cons in Hin. destruct l as [|y l].
    + destruct Hin as [->|Hin]; [apply occurs_in_refl | inversion Hin].
    + change (String.concat sep (x :: y :: l))
        with (x +:+ sep +:+ String.concat sep (y :: l)).
      destruct Hin as [->|Hin].
      * apply occurs_in_app_l, occurs_in_refl.
      * apply occurs_in_app_r, occurs_in_app_r, IH, Hin.
Qed.

(** ** Locator *)

Lemma is_preferred_true (q : string) : is_preferred q = true <-> q ∈ preferred_names.
Proof. unfold is_preferred. apply bool_decide_eq_true. Qed.

Lemma is_preferred_false (q : string) : is_preferred q = false <-> q ∉ preferred_names.
Proof. unfold is_preferred. apply bool_decide_eq_false. Qed.

Lemma filter_none_preferred (l : list string) :
  (forall q, q ∈ l -> q ∉ preferred_names) -> List.filter is_preferred l = [].
Proof.
  induction l as [|x l IH]; intros H; simpl; [reflexivity|].
  rewrite (proj2 (is_preferred_false x)) by (apply H; left).
  apply IH. intros q Hq. apply H. now right.
Qed.

Lemma filter_preferred_sole (jsons : list string) (p : string) :
  List.filter is_preferred jsons = [p] <-> sole_preferred jsons p.
Proof.
  split.
  - induction jsons as [|x l IH]; simpl; [discriminate|].
    destruct (is_preferred x) eqn:Hx.
    + intros [= -> Hl]. exists [], l. simpl. split; [reflexivity|].
      split; [now apply is_preferred_true|].
      intros q Hq. apply is_preferred_false.
      destruct (is_preferred q) eqn:Hq'; [|reflexivity].
      assert (In q (List.filter is_preferred l)) as Hin.
      { apply filter_In. split; [now apply list_elem_of_In | exact Hq']. }
      rewrite Hl in Hin. destruct Hin.
    + intros Hl. destruct (IH Hl) as (l1 & l2 & -> & Hp & Hothers).
      exists (x :: l1), l2. split; [reflexivity|]. split; [exact Hp|].
      intros q Hq. simpl in Hq. apply elem_of_cons in Hq as [->|Hq].
      * now apply is_preferred_false.
      * now apply Hothers.
  - intros (l1 & l2 & -> & Hp & Hothers).
    rewrite List.filter_app. simpl.
    rewrite (proj2 (is_preferred_true p) Hp).
    rewrite !filter_none_preferred; [reflexivity | |];
      intros q Hq; apply Hothers, elem_of_app; auto.
Qed.

(** C4. The Locator fails with NotFound ([FileNotFoundError]) on a folder
    without candidates, returns the only candidate whatever its name, and
    among several candidates returns the one bearing a preferred name when
    exactly one does; otherwise it fails with AmbiguousInput ([RuntimeError])
    and a message in which every candidate name appears. *)
Theorem find_coco_json_cases (folder : string) (jsons : list string) :
  (jsons = [] ->
     find_coco_json folder jsons = Raise (FileNotFoundError (no_json_msg folder))) /\
  (forall p, jsons = [p] -> find_coco_json folder jsons = Ok p) /\
  ((1 < length jsons)%nat ->
     forall p, sole_preferred jsons p -> find_coco_json folder jsons = Ok p) /\
  ((1 < length jsons)%nat ->
     (forall p, ~ sole_preferred jsons p) ->
     find_coco_json folder jsons = Raise (RuntimeError (multiple_json_msg jsons)) /\
     forall name, name ∈ jsons -> occurs_in name (multiple_json_msg jsons)).
Proof.
  split; [|split; [|split]].
  - intros ->. reflexivity.
  - intros p ->. reflexivity.
  - intros Hlen p Hp. unfold find_coco_json.
    rewrite bool_decide_eq_false_2 by lia.
    rewrite bool_decide_eq_true_2 by exact Hlen.
    now rewrite (proj2 (filter_preferred_sole jsons p) Hp).
  - intros Hlen Hnone. split.
    + unfold find_coco_json.
      rewrite bool_decide_eq_false_2 by lia.
      rewrite bool_decide_eq_true_2 by exact Hlen.
      destruct (List.filter is_preferred jsons) as [|p [|p' l]] eqn:Hf;
        try reflexivity.
      exfalso. apply (Hnone p). now apply filter_preferred_sole.
    + intros name Hin. unfold multiple_json_msg.
      apply occurs_in_app_r, occurs_in_app_l, join_occurs, Hin.
Qed.

Lemma find_coco_json_cases_witness :
  find_coco_json "data" ["annotations.json"; "foo.json"] = Ok "annotations.json" /\
  find_coco_json "data" ["bar.json"; "foo.json"]
    = Raise (RuntimeError (multiple_json_msg ["bar.json"; "foo.json"])).
Proof.
  split.
  - apply (proj1 (proj2 (proj2 (find_coco_json_cases "data" ["annotations.json"; "foo.json"])))).
    + simpl. lia.
    + exists [], ["foo.json"]. split; [reflexivity|].
      split; [now apply is_preferred_true|].
      intros q Hq. simpl in Hq. apply list_elem_of_singleton in Hq as ->.
      now apply is_preferred_false.
  - apply (proj2 (proj2 (proj2 (find_coco_json_cases "data" ["bar.json"; "foo.json"])))).
    + simpl. lia.
    + intros p Hp. apply filter_preferred_sole in Hp. discriminate Hp.
Defined.

(** ** Loader *)

Lemma has_key_images (data : Coco) :
  has_key data "images" = bool_decide (is_Some (images data)).
Proof. reflexivity. Qed.

Lemma has_key_annotations (data : Coco) :
  has_key data "annotations" = bool_decide (is_Some (annotations data)).
Proof. reflexivity. Qed.

Lemma has_key_categories (data : Coco) :
  has_key data "categories" = bool_decide (is_Some (categories data)).
Proof. reflexivity. Qed.

Lemma has_key_absent {A} (o : option A) :
  bool_decide (is_Some o) = false <-> o = None.
Proof.
  rewrite bool_decide_eq_false. split.
  - intros H. destruct o; [exfalso; apply H; eauto | reflexivity].
  - intros -> [x Hx]. discriminate Hx.
Qed.

Lemma check_keys_ok (keys : list string) (data : Coco) :
  (forall k, k ∈ keys -> has_key data k = true) -> check_keys keys data = Ok ().
Proof.
  induction keys as [|key rest IH]; intros H; simpl; [reflexivity|].
  rewrite (H key) by left. simpl. apply IH. intros k Hk. apply H. now right.
Qed.

Lemma check_keys_raise (keys : list string) (data : Coco) (e : exn) :
  check_keys keys data = Raise e ->
  exists k, e = ValueError (missing_msg k) /\ k ∈ keys /\ has_key data k = false.
Proof.
  induction keys as [|key rest IH]; simpl; [discriminate|].
  destruct (has_key data key) eqn:Hk; simpl.
  - intros H. destruct (IH H) as (k & -> & Hin & Hf).
    exists k. repeat split; [now right | exact Hf].
  - intros [= <-]. exists key. repeat split; [left | exact Hk].
Qed.

Lemma check_keys_missing (keys : list string) (data : Coco) (k : string) :
  k ∈ keys -> has_key data k = false ->
  exists k', check_keys keys data = Raise (ValueError (missing_msg k')).
Proof.
  induction keys as [|key rest IH]; intros Hin Hf; [inversion Hin|]. simpl.
  destruct (has_key data key) eqn:Hk; simpl; [|eauto].
  apply elem_of_cons in Hin as [->|Hin]; [congruence | now apply IH].
Qed.

Lemma validate_coco_unfold (data : Coco) :
  validate_coco data =
  match check_keys required_keys data with Ok _ => Ok data | Raise e => Raise e end.
Proof. reflexivity. Qed.

Lemma required_key_absent (data : Coco) (k : string) :
  k ∈ required_keys -> has_key data k = false ->
  images data = None \/ annotations data = None \/ categories data = None.
Proof.
  unfold required_keys. rewrite !elem_of_cons, elem_of_nil.
  intros [->|[->|[->|[]]]] H; apply has_key_absent in H; auto.
Qed.

Lemma load_coco_read (read_json : string -> result Coco) (coco_path : string)
    (data : Coco) :
  read_json coco_path = Ok data ->
  load_coco read_json coco_path = validate_coco data.
Proof. intros H. unfold load_coco. now rewrite H. Qed.

(** C5. Loading a parsed annotation file fails with SchemaError
    ([ValueError]) exactly when one of the sections "images", "annotations",
    "categories" is absent; the error names a required key that is absent;
    and when the three are present the parsed data comes back unchanged.  A
    file lacking only "categories" fails with a message that mentions
    "categories". *)
Theorem load_coco_schema (read_json : string -> result Coco)
    (coco_path : string) (data : Coco) :
  read_json coco_path = Ok data ->
  ((exists key, load_coco read_json coco_path = Raise (ValueError (missing_msg key))) <->
   (images data = None \/ annotations data = None \/ categories data = None)) /\
  (forall e, load_coco read_json coco_path = Raise e ->
     exists key, e = ValueError (missing_msg key) /\ key ∈ required_keys /\
                 has_key data key = false) /\
  (images data <> None -> annotations data <> None -> categories data <> None ->
     load_coco read_json coco_path = Ok data) /\
  (images data <> None -> annotations data <> None -> categories data = None ->
     load_coco read_json coco_path
     = Raise (ValueError "COCO file missing 'categories' section")).
Proof.
  intros Hread. rewrite (load_coco_read _ _ _ Hread), validate_coco_unfold. split; [split|split; [|split]].
  - intros [key H].
    destruct (check_keys required_keys data) as [[]|e] eqn:Hc; [discriminate|].
    destruct (check_keys_raise _ _ _ Hc) as (k & _ & Hin & Hf).
    eapply required_key_absent; eauto.
  - intros H.
    assert (exists k, k ∈ required_keys /\ has_key data k = false) as (k & Hin & Hf).
    { destruct H as [H|[H|H]]; apply has_key_absent in H;
        [exists "images" | exists "annotations" | exists "categories"];
        (split; [unfold required_keys; rewrite !elem_of_cons; auto | exact H]). }
    destruct (check_keys_missing _ _ _ Hin Hf) as [k' ->]. eauto.
  - intros e H.
    destruct (check_keys required_keys data) as [[]|e'] eqn:Hc; [discriminate|].
    injection H as <-. eapply check_keys_raise, Hc.
  - intros Hi Ha Hc. rewrite check_keys_ok; [reflexivity|].
    intros k Hk. destruct (has_key data k) eqn:Hf; [reflexivity|].
    destruct (required_key_absent _ _ Hk Hf) as [H|[H|H]]; contradiction.
  - intros Hi Ha Hc. simpl.
    rewrite has_key_images, has_key_annotations, has_key_categories.
    rewrite !bool_decide_eq_true_2
      by (match goal with |- is_Some ?o => destruct o; [eauto | contradiction] end).
    rewrite (proj2 (has_key_absent _) Hc). reflexivity.
Qed.

Lemma load_coco_schema_witness :
  load_coco (read_json (demo_world [] [])) "data/coco.json" = Ok demo_coco /\
  load_coco (fun _ => Ok {| images := Some []; annotations := Some [];
                            categories := None; other_keys := ["info"] |})
            "data/coco.json"
  = Raise (ValueError "COCO file missing 'categories' section").
Proof.
  split.
  - apply (proj1 (proj2 (proj2 (load_coco_schema _ _ _ eq_refl)))); discriminate.
  - apply (proj2 (proj2 (proj2 (load_coco_schema _ "data/coco.json" _ eq_refl))));
      [discriminate | discriminate | reflexivity].
Defined.

(** ** Dictionaries *)

Section DictFacts.
Context {K V : Type} `{EqDecision K}.
Implicit Types (d : PyDict.t K V) (k : K) (v : V).

Lemma get_set_eq d k v : PyDict.get (PyDict.set d k v) k = Some v.
Proof.
  induction d as [|[k' v'] d IH]; simpl.
  - now rewrite decide_True.
  - destruct (decide (k' = k)) as [->|Hne]; simpl.
    + now rewrite decide_True.
    + now rewrite decide_False.
Qed.

Lemma get_set_ne d k k' v :
  k <> k' -> PyDict.get (PyDict.set d k v) k' = PyDict.get d k'.
Proof.
  intros Hne. induction d as [|[k0 v0] d IH]; simpl.
  - now rewrite decide_False.
  - destruct (decide (k0 = k)) as [->|Hk0]; simpl.
    + now rewrite !decide_False.
    + now rewrite IH.
Qed.

Lemma get_None_keys d k : PyDict.get d k = None <-> k ∉ PyDict.keys d.
Proof.
  unfold PyDict.keys. induction d as [|[k' v'] d IH]; simpl.
  - split; [intros _; apply not_elem_of_nil | reflexivity].
  - rewrite not_elem_of_cons. destruct (decide (k' = k)) as [->|Hne].
    + split; [discriminate | intros [Hk _]; contradiction].
    + rewrite IH. split; [intros Hk; split; [congruence | exact Hk] | tauto].
Qed.

Lemma keys_set_in d k v :
  k ∈ PyDict.keys d -> PyDict.keys (PyDict.set d k v) = PyDict.keys d.
Proof.
  unfold PyDict.keys. induction d as [|[k' v'] d IH]; intros Hin.
  - inversion Hin.
  - simpl. destruct (decide (k' = k)) as [->|Hne]; [reflexivity|].
    simpl in Hin. apply elem_of_cons in Hin as [->|Hin]; [contradiction|].
    rewrite fmap_cons. now rewrite IH.
Qed.

Lemma keys_set_notin d k v :
  k ∉ PyDict.keys d -> PyDict.keys (PyDict.set d k v) = PyDict.keys d ++ [k].
Proof.
  unfold PyDict.keys. induction d as [|[k' v'] d IH]; intros Hnin.
  - reflexivity.
  - simpl in Hnin. apply not_elem_of_cons in Hnin as [Hne Hnin].
    simpl. rewrite decide_False by congruence.
    rewrite fmap_cons. now rewrite IH.
Qed.

Lemma keys_set_NoDup d k v :
  NoDup (PyDict.keys d) -> NoDup (PyDict.keys (PyDict.set d k v)).
Proof.
  intros Hd. destruct (decide (k ∈ PyDict.keys d)) as [Hin|Hnin].
  - now rewrite keys_set_in.
  - rewrite keys_set_notin by exact Hnin.
    apply NoDup_app. split; [exact Hd|]. split.
    + intros x Hx Hk. apply list_elem_of_singleton in Hk as ->. contradiction.
    + apply NoDup_singleton.
Qed.

Lemma keys_set_elem d k v k' :
  k' ∈ PyDict.keys (PyDict.set d k v) <-> k' = k \/ k' ∈ PyDict.keys d.
Proof.
  destruct (decide (k ∈ PyDict.keys d)) as [Hin|Hnin].
  - rewrite keys_set_in by exact Hin.
    split; [auto | intros [->|Hk]; assumption].
  - rewrite keys_set_notin by exact Hnin.
    rewrite elem_of_app, list_elem_of_singleton. tauto.
Qed.

(** A dictionary comprehension keeps, for each key, the last element bearing
    it. *)
Lemma comprehension_fold_get (key : V -> K) (l : list V) d k :
  PyDict.get (fold_left (fun d x => PyDict.set d (key x) x) l d) k =
  match last (filter (fun x => key x = k) l) with
  | Some x => Some x
  | None => PyDict.get d k
  end.
Proof.
  induction l as [|x l IH] using rev_ind; [reflexivity|].
  rewrite fold_left_app, filter_app, filter_cons, filter_nil. simpl.
  destruct (decide (key x = k)) as [<-|Hne].
  - rewrite get_set_eq, last_snoc. reflexivity.
  - rewrite get_set_ne by exact Hne. rewrite app_nil_r. apply IH.
Qed.

Lemma comprehension_get (key : V -> K) (l : list V) k :
  PyDict.get (PyDict.comprehension key l) k = last (filter (fun x => key x = k) l).
Proof.
  unfold PyDict.comprehension. rewrite comprehension_fold_get.
  now destruct (last _).
Qed.

Lemma comprehension_fold_NoDup (key : V -> K) (l : list V) d :
  NoDup (PyDict.keys d) ->
  NoDup (PyDict.keys (fold_left (fun d x => PyDict.set d (key x) x) l d)).
Proof.
  revert d. induction l as [|x l IH]; intros d Hd; [exact Hd|].
  simpl. apply IH, keys_set_NoDup, Hd.
Qed.

Lemma comprehension_NoDup (key : V -> K) (l : list V) :
  NoDup (PyDict.keys (PyDict.comprehension key l)).
Proof. apply comprehension_fold_NoDup, NoDup_nil_2. Qed.

Lemma comprehension_fold_keys (key : V -> K) (l : list V) d k :
  k ∈ PyDict.keys (fold_left (fun d x => PyDict.set d (key x) x) l d) <->
  k ∈ PyDict.keys d \/ k ∈ map key l.
Proof.
  revert d. induction l as [|x l IH]; intros d; simpl.
  - rewrite elem_of_nil. tauto.
  - rewrite IH, keys_set_elem, elem_of_cons. tauto.
Qed.

Lemma comprehension_keys (key : V -> K) (l : list V) k :
  k ∈ PyDict.keys (PyDict.comprehension key l) <-> k ∈ map key l.
Proof.
  unfold PyDict.comprehension. rewrite comprehension_fold_keys.
  unfold PyDict.keys, PyDict.empty. simpl. rewrite elem_of_nil. tauto.
Qed.
End DictFacts.

(** ** Indexer *)

Lemma get_default_append_ann d ann id :
  PyDict.get_default (append_ann d ann) id [] =
  PyDict.get_default d id [] ++ (if decide (ann_image_id ann = id) then [ann] else []).
Proof.
  unfold append_ann, PyDict.get_default.
  destruct (decide (ann_image_id ann = id)) as [<-|Hne].
  - now rewrite get_set_eq.
  - rewrite get_set_ne by exact Hne. now rewrite app_nil_r.
Qed.

Lemma anns_fold_get_default (l : list Annotation) d id :
  PyDict.get_default (fold_left append_ann l d) id [] =
  PyDict.get_default d id [] ++ filter (fun a => ann_image_id a = id) l.
Proof.
  revert d. induction l as [|a l IH]; intros d; simpl.
  - now rewrite app_nil_r.
  - rewrite IH, get_default_append_ann, filter_cons.
    destruct (decide (ann_image_id a = id)); simpl.
    + now rewrite <- app_assoc.
    + now rewrite app_nil_r.
Qed.

Lemma anns_fold_keys (l : list Annotation) d id :
  id ∈ PyDict.keys (fold_left append_ann l d) <->
  id ∈ PyDict.keys d \/ id ∈ map ann_image_id l.
Proof.
  revert d. induction l as [|a l IH]; intros d; simpl.
  - rewrite elem_of_nil. tauto.
  - rewrite IH. unfold append_ann. rewrite keys_set_elem, elem_of_cons. tauto.
Qed.

(** C7. After indexing, the annotations looked up for an image id are those
    of the annotations section whose [image_id] equals it, in the section's
    order; an id no annotation refers to has no entry and is looked up as the
    empty list; and [images_by_id] and [categories_by_id] hold for each id the
    last entry of their section bearing it. *)
Theorem build_indices_lookup (imgs : list Image) (anns : list Annotation)
    (cats : list Category) (others : list string) :
  exists images_by_id anns_by_image categories_by_id,
    build_indices {| images := Some imgs; annotations := Some anns;
                     categories := Some cats; other_keys := others |}
      = Ok (images_by_id, anns_by_image, categories_by_id) /\
    (forall id, PyDict.get_default anns_by_image id []
                = filter (fun a => ann_image_id a = id) anns) /\
    (forall id, id ∉ map ann_image_id anns ->
                PyDict.get anns_by_image id = None /\
                PyDict.get_default anns_by_image id [] = []) /\
    (forall id, PyDict.get images_by_id id
                = last (filter (fun i => img_id i = id) imgs)) /\
    (forall id, PyDict.get categories_by_id id
                = last (filter (fun c => cat_id c = id) cats)).
Proof.
  exists (images_index imgs), (anns_index anns), (categories_index cats).
  split; [reflexivity|].
  assert (forall id, id ∉ map ann_image_id anns ->
                     PyDict.get (anns_index anns) id = None) as Hnone.
  { intros id Hid. apply get_None_keys. unfold anns_index.
    rewrite anns_fold_keys. intros [H|H]; [inversion H | contradiction]. }
  repeat split.
  - intros id. unfold anns_index. now rewrite anns_fold_get_default.
  - now apply Hnone.
  - unfold PyDict.get_default. now rewrite Hnone.
  - intros id. apply comprehension_get.
  - intros id. apply comprehension_get.
Qed.

Example build_indices_last_write_wins :
  PyDict.get (images_index [ {| img_id := 1; img_file_name := "a.png" |};
                             {| img_id := 2; img_file_name := "b.png" |};
                             {| img_id := 1; img_file_name := "c.png" |} ]) 1
  = Some {| img_id := 1; img_file_name := "c.png" |}.
Proof. reflexivity. Qed.

(** ** Color Assigner *)

Lemma palette_nonempty (rc : option (list string)) : palette rc <> [].
Proof. destruct rc as [[|c cs]|]; discriminate. Qed.

(** One [next] on a cycle that has run [j] elements into the current round. *)
Lemma next_cycle (colors : list string) (cyc : cycle_iter) (j : nat) :
  colors <> [] -> saved cyc = colors -> (j <= length colors)%nat ->
  pending cyc = drop j colors ->
  exists c cyc',
    next cyc = Ok (c, cyc') /\
    colors !! (j mod length colors)%nat = Some c /\
    saved cyc' = colors /\
    pending cyc' = drop (S (j mod length colors)) colors.
Proof.
  intros Hne Hsaved Hj Hpending. unfold next. rewrite Hpending, Hsaved.
  destruct (decide (j = length colors)) as [->|Hlt].
  - rewrite drop_all, Nat.Div0.mod_same.
    destruct colors as [|c rest]; [contradiction|].
    exists c, {| pending := rest; saved := c :: rest |}. auto.
  - assert (j < length colors)%nat as Hj' by lia.
    rewrite Nat.mod_small by exact Hj'.
    destruct (lookup_lt_is_Some_2 colors j Hj') as [c Hc].
    rewrite (drop_S _ _ _ Hc).
    exists c, {| pending := drop (S j) colors; saved := colors |}. auto.
Qed.

Lemma assign_colors_lookup (colors : list string) :
  colors <> [] ->
  forall (cids : list Z) (cyc : cycle_iter) (mapping : PyDict.t Z string) (j : nat),
    NoDup cids -> saved cyc = colors -> (j <= length colors)%nat ->
    pending cyc = drop j colors ->
    exists mapping',
      assign_colors cids cyc mapping = Ok mapping' /\
      (forall i cid, cids !! i = Some cid ->
         PyDict.get mapping' cid = colors !! ((j + i) mod length colors)%nat) /\
      (forall k, k ∉ cids -> PyDict.get mapping' k = PyDict.get mapping k).
Proof.
  intros Hne. assert (0 < length colors)%nat as Hlen.
  { destruct colors; [contradiction | simpl; lia]. }
  induction cids as [|cid rest IH]; intros cyc mapping j Hnd Hsaved Hj Hpending.
  - exists mapping. split; [reflexivity|]. split; [|reflexivity].
    intros i cid Hi. discriminate Hi.
  - apply NoDup_cons in Hnd as [Hcid Hnd].
    destruct (next_cycle colors cyc j Hne Hsaved Hj Hpending)
      as (c & cyc' & Hnext & Hc & Hsaved' & Hpending').
    assert (S (j mod length colors) <= length colors)%nat as Hj'.
    { pose proof (Nat.mod_upper_bound j (length colors)). lia. }
    destruct (IH cyc' (PyDict.set mapping cid c) _ Hnd Hsaved' Hj' Hpending')
      as (mapping' & Hrun & Hlookup & Hframe).
    exists mapping'. split; [|split].
    + simpl. rewrite Hnext. exact Hrun.
    + intros [|i] k Hi; simpl in Hi.
      * injection Hi as <-. rewrite Hframe by exact Hcid.
        rewrite get_set_eq, Nat.add_0_r. now rewrite Hc.
      * rewrite (Hlookup i k Hi). f_equal.
        replace (j + S i)%nat with (j + (1 + i))%nat by lia.
        rewrite Nat.add_assoc.
        rewrite <- (Nat.Div0.add_mod_idemp_l (j + 1) i).
        rewrite <- (Nat.Div0.add_mod_idemp_l j 1).
        rewrite (Nat.Div0.add_mod_idemp_l (j mod length colors + 1) i).
        f_equal. lia.
    + intros k Hk. apply not_elem_of_cons in Hk as [Hne' Hk].
      rewrite Hframe by exact Hk. apply get_set_ne. congruence.
Qed.

Lemma sorted_Permutation (l : list Z) : sorted l ≡ₚ l.
Proof. apply merge_sort_Permutation. Qed.

Lemma sorted_Sorted (l : list Z) : Sorted Z.le (sorted l).
Proof. apply (Sorted_merge_sort Z.le). Qed.

Lemma sorted_NoDup (l : list Z) : NoDup l -> NoDup (sorted l).
Proof. intros H. now rewrite sorted_Permutation. Qed.

(** The sorted key list depends only on which ids occur. *)
Lemma sorted_keys_Permutation (cats cats' : list Category) :
  cats ≡ₚ cats' ->
  sorted (PyDict.keys (categories_index cats))
  = sorted (PyDict.keys (categories_index cats')).
Proof.
  intros Hperm. apply (Sorted_unique Z.le); try apply sorted_Sorted.
  rewrite !sorted_Permutation.
  apply NoDup_Permutation; try apply comprehension_NoDup.
  intros id. unfold categories_index. rewrite !comprehension_keys.
  now rewrite Hperm.
Qed.

(** C6. The Color Assigner walks the category ids in ascending order and
    gives the id at sorted position [i] the palette color [i mod] the
    palette's length.  For ids [5, 1, 3] this gives color 0 to id 1, color 1
    to id 3 and color 2 to id 5, and listing the categories in another order
    changes nothing. *)
Theorem category_color_map_cyclic (rc : option (list string)) (cats : list Category) :
  let categories_by_id := categories_index cats in
  let ids := sorted (PyDict.keys categories_by_id) in
  let colors := palette rc in
  (exists mapping,
     category_color_map rc categories_by_id = Ok mapping /\
     Sorted Z.le ids /\ NoDup ids /\
     (forall id, id ∈ ids <-> id ∈ map cat_id cats) /\
     (forall i id, ids !! i = Some id ->
        PyDict.get mapping id = colors !! (i mod length colors)%nat)) /\
  (map cat_id cats = [5; 1; 3] ->
     exists mapping,
       category_color_map rc categories_by_id = Ok mapping /\
       PyDict.get mapping 1 = colors !! (0 mod length colors)%nat /\
       PyDict.get mapping 3 = colors !! (1 mod length colors)%nat /\
       PyDict.get mapping 5 = colors !! (2 mod length colors)%nat) /\
  (forall cats', cats ≡ₚ cats' ->
     category_color_map rc (categories_index cats')
     = category_color_map rc categories_by_id).
Proof.
  intros categories_by_id ids colors.
  assert (NoDup ids) as Hnd by apply sorted_NoDup, comprehension_NoDup.
  destruct (assign_colors_lookup colors (palette_nonempty rc) ids (cycle colors)
              PyDict.empty 0 Hnd eq_refl (Nat.le_0_l _) eq_refl)
    as (mapping & Hrun & Hlookup & _).
  split; [|split].
  - exists mapping. split; [exact Hrun|]. split; [apply sorted_Sorted|].
    split; [exact Hnd|]. split; [|exact Hlookup].
    intros id. unfold ids. rewrite sorted_Permutation.
    apply comprehension_keys.
  - intros Hids. exists mapping. split; [exact Hrun|].
    assert (ids = [1; 3; 5]) as Hsorted.
    { apply (Sorted_unique Z.le); [apply sorted_Sorted | | ].
      - repeat constructor; lia.
      - unfold ids. rewrite sorted_Permutation.
        apply NoDup_Permutation; [apply comprehension_NoDup | | ].
        + repeat constructor; rewrite ?elem_of_cons, ?elem_of_nil; lia.
        + intros id. unfold categories_by_id, categories_index.
          rewrite comprehension_keys, Hids, !elem_of_cons, !elem_of_nil. lia. }
    repeat split; apply Hlookup; rewrite Hsorted; reflexivity.
  - intros cats' Hperm. unfold category_color_map, categories_by_id.
    now rewrite (sorted_keys_Permutation cats cats' Hperm).
Qed.

Lemma category_color_map_cyclic_witness :
  category_color_map None
    (categories_index [ {| cat_id := 1; cat_name := Some "cat" |};
                        {| cat_id := 3; cat_name := None |};
                        {| cat_id := 5; cat_name := Some "dog" |} ])
  = Ok [(1, "C0"); (3, "C1"); (5, "C2")].
Proof.
  rewrite (proj2 (proj2 (category_color_map_cyclic None
             [ {| cat_id := 5; cat_name := Some "dog" |};
               {| cat_id := 1; cat_name := Some "cat" |};
               {| cat_id := 3; cat_name := None |} ]))).
  - vm_compute. reflexivity.
  - apply (Permutation_cons_append
             [ {| cat_id := 1; cat_name := Some "cat" |};
               {| cat_id := 3; cat_name := None |} ]).
Defined.

(** ** Numbers *)

Lemma float_ltb_leb (a b : float) :
  PrimFloat.ltb a b = true -> PrimFloat.leb a b = true.
Proof.
  rewrite FloatAxioms.ltb_spec, FloatAxioms.leb_spec. unfold SpecFloat.SFltb, SpecFloat.SFleb.
  destruct (SpecFloat.SFcompare _ _) as [[]|]; congruence.
Qed.

Lemma max_float_cases (c v : float) :
  (max_float c v = c /\ PrimFloat.ltb c v = false) \/
  (max_float c v = v /\ PrimFloat.ltb c v = true).
Proof. unfold max_float. destruct (PrimFloat.ltb c v); auto. Qed.

Lemma max_int_num_cases (c : Z) (v : num) :
  (max_int_num c v = PInt c /\ num_gt_int v c = false) \/
  (max_int_num c v = v /\ num_gt_int v c = true).
Proof. unfold max_int_num. destruct (num_gt_int v c); auto. Qed.

Lemma max_int_num_nonneg (v : num) : num_nonneg (max_int_num 0 v) = true.
Proof.
  destruct (max_int_num_cases 0 v) as [[-> _]|[-> Hgt]]; [reflexivity|].
  destruct v as [z|f]; simpl in *.
  - apply Z.leb_le. apply Z.ltb_lt in Hgt. lia.
  - apply float_ltb_leb. exact Hgt.
Qed.

Lemma linewidth_of_min (im : PILImage) :
  PrimFloat.leb 1.5 (linewidth_of im) = true.
Proof.
  unfold linewidth_of.
  destruct (max_float_cases 1.5
              (PrimFloat.mul (Z2F (Z.min (im_width im) (im_height im))) 0.002))
    as [[-> _]|[-> Hgt]].
  - reflexivity.
  - now apply float_ltb_leb.
Qed.

Lemma all_from_spec (test : Z -> bool) (count : nat) :
  forall start, all_from test start count = true ->
  forall z, start <= z < start + Z.of_nat count -> test z = true.
Proof.
  induction count as [|k IH]; simpl all_from; intros start H z Hz; [lia|].
  apply andb_prop in H as [Hstart Hrest].
  destruct (decide (z = start)) as [->|Hne]; [exact Hstart|].
  apply (IH (start + 1)); [exact Hrest | lia].
Qed.

Lemma scaled_below_thickness :
  all_from (fun m => PrimFloat.leb (PrimFloat.mul (Z2F m) 0.002)
                       (max_float 1.5 (PrimFloat.mul (Z2F m) 0.002)))
           0 (Z.to_nat 100001) = true.
Proof. vm_compute. reflexivity. Qed.

(** On a modest image the thickness is the larger of 1.5 and the scaled
    side. *)
Lemma linewidth_of_thickness (im : PILImage) :
  modest im -> thickness_for im (linewidth_of im).
Proof.
  intros Hm. unfold thickness_for. cbn zeta.
  split; [apply linewidth_of_min|]. split.
  - apply (all_from_spec _ _ 0 scaled_below_thickness
             (Z.min (im_width im) (im_height im))).
    unfold modest in Hm. rewrite Z2Nat.id; lia.
  - unfold linewidth_of.
    destruct (max_float_cases 1.5
                (PrimFloat.mul (Z2F (Z.min (im_width im) (im_height im))) 0.002))
      as [[-> _]|[-> _]]; auto.
Qed.

Lemma drawable_four (anns : list Annotation) :
  Forall drawable anns -> Forall (fun ann => length (ann_bbox ann) = 4%nat) anns.
Proof.
  intros H. eapply Forall_impl; [exact H|]. now intros ann [H4 _].
Qed.

Example linewidth_small : linewidth_of {| im_width := 640; im_height := 480 |} = 1.5%float.
Proof. reflexivity. Qed.

Example linewidth_large : linewidth_of {| im_width := 4000; im_height := 3000 |} = 6%float.
Proof. reflexivity. Qed.

(** ** Renderer *)

Lemma unpack4_four (bbox : list num) :
  length bbox = 4%nat ->
  exists x y w h, bbox = [x; y; w; h] /\ unpack4 bbox = Ok (x, y, w, h).
Proof.
  destruct bbox as [|x [|y [|w [|h [|]]]]]; try discriminate.
  intros _. exists x, y, w, h. split; reflexivity.
Qed.

Lemma color_of_lookup (color_map : PyDict.t Z string) (cat_id : option Z) :
  color_of color_map cat_id
  = from_option id "white" (cat_id ≫= PyDict.get color_map).
Proof.
  destruct cat_id as [cid|]; [|reflexivity]. simpl.
  unfold PyDict.get_default. now destruct (PyDict.get color_map cid).
Qed.

Lemma rectangles_app (a b : list artist) :
  rectangles (a ++ b) = rectangles a ++ rectangles b.
Proof.
  induction a as [|[r|t|l] a IH]; simpl; [reflexivity | now rewrite IH | exact IH | exact IH].
Qed.

Section Drawing.
Variable im : PILImage.
Variable categories_by_id : PyDict.t Z Category.
Variable color_map : PyDict.t Z string.

(** A turn of the loop on a four-number bbox adds one outline, one tag and
    one text, in this order. *)
Lemma draw_ann_four (ann : Annotation) :
  length (ann_bbox ann) = 4%nat ->
  exists r t l,
    draw_ann im categories_by_id color_map ann = Ok [Patch r; Tag t; Label l] /\
    (modest im -> outline_of im color_map ann r).
Proof.
  intros Hlen. destruct (unpack4_four _ Hlen) as (x & y & w & h & Hbbox & Hun).
  unfold draw_ann. rewrite Hun. simpl.
  eexists _, _, _. split; [reflexivity|]. intros Hmodest.
  exists x, y, w, h. simpl. repeat split; try assumption.
  - apply color_of_lookup.
  - now apply linewidth_of_thickness.
  - now apply linewidth_of_thickness.
  - now apply linewidth_of_thickness.
Qed.

Lemma draw_anns_outlines (anns : list Annotation) :
  Forall (fun ann => length (ann_bbox ann) = 4%nat) anns ->
  exists arts,
    draw_anns im categories_by_id color_map anns = Ok arts /\
    (modest im -> Forall2 (outline_of im color_map) anns (rectangles arts)).
Proof.
  induction 1 as [|ann anns Hann _ (arts & Hrun & Hrects)].
  - exists []. split; [reflexivity | constructor].
  - destruct (draw_ann_four ann Hann) as (r & t & l & Hone & Hr).
    exists ([Patch r; Tag t; Label l] ++ arts). split.
    + simpl. rewrite Hone. simpl. rewrite Hrun. reflexivity.
    + intros Hmodest. rewrite rectangles_app. simpl. constructor; auto.
Qed.
End Drawing.

(** C8. When the image decodes, its smaller side is at most 100000 pixels,
    the resolution is positive (and at most 2^53) and every bbox holds four
    numbers that binary64 takes (integers up to 2^53 either way, floats
    within the same bounds), the Renderer returns a figure whose outlines are,
    annotation by annotation and in order: a rectangle at the bbox's (x, y)
    of the bbox's width and height, unfilled, edged in the color the map
    assigns to the category id or in white when the map has none, and as
    thick as the larger of 1.5 and 0.002 times the smaller image side (one of
    the two and below neither). *)
Theorem draw_outlines (open_image : string -> string + PILImage) (st : PltState)
    (img_path : string) (anns : list Annotation)
    (categories_by_id : PyDict.t Z Category) (color_map : PyDict.t Z string)
    (dpi : Z) (im : PILImage) :
  open_image img_path = inr im -> modest im -> usable_dpi dpi ->
  Forall drawable anns ->
  exists fig st',
    draw_image_with_bboxes open_image st img_path anns categories_by_id
      color_map dpi = Ok (fig, st') /\
    fig_image fig = Some im /\
    Forall2 (outline_of im color_map) anns (rectangles (fig_artists fig)).
Proof.
  intros Hopen Hmodest Hdpi Hanns.
  destruct (draw_anns_outlines im categories_by_id color_map anns
              (drawable_four anns Hanns)) as (arts & Hrun & Hrects).
  unfold draw_image_with_bboxes, true_div. rewrite Hopen.
  rewrite (proj2 (Z.eqb_neq dpi 0)) by (unfold usable_dpi in Hdpi; lia).
  simpl. rewrite Hrun. simpl.
  eexists _, _. split; [reflexivity|]. split; [reflexivity | now apply Hrects].
Qed.

Lemma draw_outlines_witness :
  exists fig st',
    draw_image_with_bboxes (open_image (demo_world [] [])) [] "data/b.png"
      (PyDict.get_default (anns_index demo_anns) 2 [])
      (categories_index demo_cats) [(1, "red"); (3, "green"); (5, "red")] 120
      = Ok (fig, st') /\
    fig_image fig = Some {| im_width := 640; im_height := 480 |} /\
    Forall2 (outline_of {| im_width := 640; im_height := 480 |}
                        [(1, "red"); (3, "green"); (5, "red")])
            (PyDict.get_default (anns_index demo_anns) 2 [])
            (rectangles (fig_artists fig)).
Proof.
  apply draw_outlines.
  - reflexivity.
  - unfold modest. simpl. lia.
  - unfold usable_dpi. lia.
  - repeat constructor; simpl; lia.
Defined.

(** ** Labels *)

Lemma lstrip_with_keeps (p : ascii -> bool) (s : string) :
  (forall c, first_char s = Some c -> p c = false) -> lstrip_with p s = s.
Proof.
  destruct s as [|c s]; intros H; [reflexivity|].
  simpl. now rewrite (H c eq_refl).
Qed.

Lemma rstrip_with_keeps (p : ascii -> bool) (s : string) :
  (forall c, last_char s = Some c -> p c = false) -> rstrip_with p s = s.
Proof.
  induction s as [|c s IH]; intros H; [reflexivity|].
  destruct s as [|c' s].
  - simpl. now rewrite (H c eq_refl).
  - change (rstrip_with p (String c (String c' s)))
      with (match rstrip_with p (String c' s) with
            | EmptyString => if p c then EmptyString else String c EmptyString
            | r => String c r
            end).
    rewrite IH by exact H. reflexivity.
Qed.

Lemma rstrip_with_snoc (p : ascii -> bool) (s : string) (c : ascii) :
  p c = true -> rstrip_with p (s +:+ String c "") = rstrip_with p s.
Proof.
  intros Hc. induction s as [|a s IH].
  - simpl. now rewrite Hc.
  - rewrite append_cons. simpl. now rewrite IH.
Qed.

Lemma last_char_app (a b : string) :
  b <> "" -> last_char (a +:+ b) = last_char b.
Proof.
  intros Hb. induction a as [|c a IH]; [reflexivity|].
  rewrite append_cons.
  destruct (a +:+ b) as [|c' r] eqn:Hab.
  - destruct a; [simpl in Hab; contradiction | discriminate Hab].
  - exact IH.
Qed.

Lemma free_of_first (p : ascii -> bool) (s : string) (c : ascii) :
  free_of p s = true -> first_char s = Some c -> p c = false.
Proof.
  destruct s as [|a s]; [discriminate|]. simpl.
  intros H [= <-]. apply andb_prop in H as [H _]. now apply negb_true_iff.
Qed.

Lemma free_of_last (p : ascii -> bool) (s : string) (c : ascii) :
  free_of p s = true -> last_char s = Some c -> p c = false.
Proof.
  induction s as [|a s IH]; [discriminate|]. simpl.
  intros H. apply andb_prop in H as [Ha Hs].
  destruct s as [|a' s]; [intros [= <-]; now apply negb_true_iff | now apply IH].
Qed.

(** Decimal numerals hold digits and at most a sign. *)
Lemma uint_hash_free (d : Decimal.uint) :
  free_of (Ascii.eqb "#") (NilEmpty.string_of_uint d) = true.
Proof. induction d; simpl; auto. Qed.

Lemma str_of_Z_hash_free (z : Z) : free_of (Ascii.eqb "#") (str_of_Z z) = true.
Proof.
  unfold str_of_Z. destruct (Z.to_int z) as [d|d]; simpl.
  - destruct d; try apply (uint_hash_free (_ _)); reflexivity.
  - destruct d; try apply (uint_hash_free (_ _)); reflexivity.
Qed.

Lemma str_of_Z_nonempty (z : Z) : str_of_Z z <> "".
Proof.
  unfold str_of_Z. destruct (Z.to_int z) as [d|d]; simpl; [|discriminate].
  destruct d; discriminate.
Qed.

Lemma first_char_app (a b : string) :
  a <> "" -> first_char (a +:+ b) = first_char a.
Proof. destruct a; [contradiction | reflexivity]. Qed.

Lemma not_hash (o : option ascii) (c : ascii) :
  o <> Some "#"%char -> o = Some c -> Ascii.eqb "#" c = false.
Proof. intros Ho ->. apply Ascii.eqb_neq. congruence. Qed.

Lemma label_of_both (name : string) (z : Z) :
  name <> "" -> first_char name <> Some "#"%char ->
  label_of name (Some z) = name +:+ "#" +:+ str_of_Z z.
Proof.
  intros Hne Hfirst. unfold label_of, strip_char, strip_with. simpl.
  rewrite lstrip_with_keeps.
  - apply rstrip_with_keeps. intros c.
    rewrite !last_char_app by (discriminate || apply str_of_Z_nonempty).
    apply free_of_last, str_of_Z_hash_free.
  - intros c. rewrite first_char_app by exact Hne. now apply not_hash.
Qed.

Lemma label_of_name_only (name : string) :
  first_char name <> Some "#"%char -> last_char name <> Some "#"%char ->
  label_of name None = name.
Proof.
  intros Hfirst Hlast. unfold label_of, strip_char, strip_with.
  change (name +:+ "#" +:+ from_option str_of_Z "" None)
    with (name +:+ String "#" "").
  destruct (String.eqb_spec name "") as [->|Hne]; [reflexivity|].
  rewrite lstrip_with_keeps.
  - rewrite rstrip_with_snoc by reflexivity.
    apply rstrip_with_keeps. intros c. now apply not_hash.
  - intros c. rewrite first_char_app by exact Hne. now apply not_hash.
Qed.

Lemma label_of_id_only (z : Z) : label_of "" (Some z) = str_of_Z z.
Proof.
  unfold label_of, strip_char, strip_with. simpl.
  rewrite lstrip_with_keeps by (intros c; apply free_of_first, str_of_Z_hash_free).
  apply rstrip_with_keeps. intros c. apply free_of_last, str_of_Z_hash_free.
Qed.

(** On a name with no "#" at either end the label is the two parts joined
    by "#", the separator left out when a part is empty. *)
Lemma label_of_joined (name : string) (id : option Z) :
  first_char name <> Some "#"%char -> last_char name <> Some "#"%char ->
  label_of name id = joined_parts name (from_option str_of_Z "" id).
Proof.
  intros Hfirst Hlast. unfold joined_parts.
  destruct (String.eqb_spec name "") as [->|Hne].
  - destruct id as [z|]; [apply label_of_id_only | reflexivity].
  - destruct id as [z|]; simpl.
    + rewrite (proj2 (String.eqb_neq _ _) (str_of_Z_nonempty z)).
      now apply label_of_both.
    + now apply label_of_name_only.
Qed.

Lemma cat_name_of_name_part (categories_by_id : PyDict.t Z Category) (ann : Annotation) :
  cat_name_of categories_by_id (ann_category_id ann) = name_part categories_by_id ann.
Proof.
  unfold cat_name_of, name_part. destruct (ann_category_id ann) as [cid|]; simpl;
    [|reflexivity].
  destruct (PyDict.get categories_by_id cid) as [[i [n|]]|]; reflexivity.
Qed.

Lemma label_of_label_text (categories_by_id : PyDict.t Z Category) (ann : Annotation) :
  label_of (cat_name_of categories_by_id (ann_category_id ann)) (ann_id ann)
  = label_text categories_by_id ann.
Proof.
  unfold label_of, label_text, id_part. rewrite cat_name_of_name_part.
  now destruct (ann_id ann).
Qed.

Lemma tags_app (a b : list artist) : tags (a ++ b) = tags a ++ tags b.
Proof.
  induction a as [|[r|t|l] a IH]; simpl; [reflexivity | exact IH | now rewrite IH | exact IH].
Qed.

Lemma labels_app (a b : list artist) : labels (a ++ b) = labels a ++ labels b.
Proof.
  induction a as [|[r|t|l] a IH]; simpl; [reflexivity | exact IH | exact IH | now rewrite IH].
Qed.

Section Tagging.
Variable im : PILImage.
Variable categories_by_id : PyDict.t Z Category.
Variable color_map : PyDict.t Z string.

Lemma draw_ann_tag (ann : Annotation) :
  length (ann_bbox ann) = 4%nat ->
  exists r t l,
    draw_ann im categories_by_id color_map ann = Ok [Patch r; Tag t; Label l] /\
    tag_of categories_by_id color_map ann t /\
    text_s l = label_text categories_by_id ann.
Proof.
  intros Hlen. destruct (unpack4_four _ Hlen) as (x & y & w & h & Hbbox & Hun).
  unfold draw_ann. rewrite Hun. simpl.
  eexists _, _, _. split; [reflexivity|]. split; [|apply label_of_label_text].
  exists x, y, w, h. simpl. rewrite label_of_label_text.
  repeat split; try assumption.
  - apply max_int_num_nonneg.
  - intros Hgt. unfold max_int_num. now rewrite Hgt.
  - unfold label_width. lia.
  - apply color_of_lookup.
Qed.

Lemma draw_anns_tags (anns : list Annotation) :
  Forall (fun ann => length (ann_bbox ann) = 4%nat) anns ->
  exists arts,
    draw_anns im categories_by_id color_map anns = Ok arts /\
    Forall2 (tag_of categories_by_id color_map) anns (tags arts) /\
    map text_s (labels arts) = map (label_text categories_by_id) anns.
Proof.
  induction 1 as [|ann anns Hann _ (arts & Hrun & Htags & Htexts)].
  - exists []. repeat split; constructor.
  - destruct (draw_ann_tag ann Hann) as (r & t & l & Hone & Ht & Hl).
    exists ([Patch r; Tag t; Label l] ++ arts). split; [|split].
    + simpl. rewrite Hone. simpl. rewrite Hrun. reflexivity.
    + rewrite tags_app. simpl. constructor; assumption.
    + rewrite labels_app. simpl. now rewrite Hl, Htexts.
Qed.
End Tagging.

(** X16. When the image decodes, the resolution is positive (and at most
    2^53) and every bbox holds four numbers that binary64 takes (integers up
    to 2^53 either way, floats within the same bounds), the Renderer returns
    a figure
    with, annotation by annotation and in order, a filled tag whose corner is
    18 above the box's top-left corner and never above the top edge, 18 high
    and wide enough for its text at 7 units a character (at least 40), and a
    text made of the name part, "#" and the annotation id, stripped of "#" at
    both ends; the name part is the category's name, or the category id as
    text when the category is unlisted or unnamed.  Whenever the name part
    has no "#" at either end, the text is the two parts joined by "#" with
    the separator left out when a part is empty. *)
Theorem draw_tags (open_image : string -> string + PILImage) (st : PltState)
    (img_path : string) (anns : list Annotation)
    (categories_by_id : PyDict.t Z Category) (color_map : PyDict.t Z string)
    (dpi : Z) (im : PILImage) :
  open_image img_path = inr im -> usable_dpi dpi ->
  Forall drawable anns ->
  exists fig st',
    draw_image_with_bboxes open_image st img_path anns categories_by_id
      color_map dpi = Ok (fig, st') /\
    Forall2 (tag_of categories_by_id color_map) anns (tags (fig_artists fig)) /\
    map text_s (labels (fig_artists fig)) = map (label_text categories_by_id) anns /\
    (forall ann,
       first_char (name_part categories_by_id ann) <> Some "#"%char ->
       last_char (name_part categories_by_id ann) <> Some "#"%char ->
       label_text categories_by_id ann
       = joined_parts (name_part categories_by_id ann) (id_part ann)).
Proof.
  intros Hopen Hdpi Hanns.
  destruct (draw_anns_tags im categories_by_id color_map anns
              (drawable_four anns Hanns)) as (arts & Hrun & Htags & Htexts).
  unfold draw_image_with_bboxes, true_div. rewrite Hopen.
  rewrite (proj2 (Z.eqb_neq dpi 0)) by (unfold usable_dpi in Hdpi; lia).
  simpl. rewrite Hrun. simpl.
  eexists _, _. split; [reflexivity|]. split; [exact Htags|].
  split; [exact Htexts|].
  intros ann Hfirst Hlast. rewrite <- label_of_label_text.
  rewrite cat_name_of_name_part. unfold id_part.
  rewrite (label_of_joined _ (ann_id ann) Hfirst Hlast).
  now destruct (ann_id ann).
Qed.

Lemma draw_tags_witness :
  exists fig st',
    draw_image_with_bboxes (open_image (demo_world [] [])) [] "data/b.png"
      (PyDict.get_default (anns_index demo_anns) 2 [])
      (categories_index demo_cats) [(1, "red"); (3, "green"); (5, "red")] 120
      = Ok (fig, st') /\
    map text_s (labels (fig_artists fig)) = ["dog#10"; "9"].
Proof.
  destruct (draw_tags (open_image (demo_world [] [])) [] "data/b.png"
              (PyDict.get_default (anns_index demo_anns) 2 [])
              (categories_index demo_cats) [(1, "red"); (3, "green"); (5, "red")]
              120 {| im_width := 640; im_height := 480 |})
    as (fig & st' & Hrun & _ & Htexts & _).
  - reflexivity.
  - unfold usable_dpi. lia.
  - repeat constructor; simpl; lia.
  - exists fig, st'. split; [exact Hrun|]. rewrite Htexts. reflexivity.
Defined.

(** C9. The label is meant to read "<category name>#<annotation id>", but
    stripping "#" from both ends also takes a "#" that belongs to the name:
    for annotation 11 of the category named "#cat" the Renderer writes
    "cat#11", not "#cat#11". *)
Lemma label_drops_hash_of_name :
  name_part (categories_index demo_cats)
    {| ann_id := Some 11; ann_image_id := 1; ann_category_id := Some 1;
       ann_bbox := [PFloat 10.5; PFloat 50; PInt 30; PInt 40] |} = "#cat" /\
  (exists fig st',
     draw_image_with_bboxes (open_image (demo_world [] [])) [] "data/a.png"
       [ {| ann_id := Some 11; ann_image_id := 1; ann_category_id := Some 1;
            ann_bbox := [PFloat 10.5; PFloat 50; PInt 30; PInt 40] |} ]
       (categories_index demo_cats) [(1, "red"); (3, "green"); (5, "red")] 120
       = Ok (fig, st') /\
     map text_s (labels (fig_artists fig)) = ["cat#11"]) /\
  "cat#11" <> "#cat" +:+ "#" +:+ str_of_Z 11.
Proof.
  split; [reflexivity|]. split; [|discriminate].
  eexists _, _. split; reflexivity.
Qed.

(** ** Determinism of the Renderer *)

(** The figure the Renderer returns, up to the number matplotlib gives it. *)
Lemma draw_image_with_bboxes_state (open_image : string -> string + PILImage)
    (st : PltState) (img_path : string) (anns : list Annotation)
    (categories_by_id : PyDict.t Z Category) (color_map : PyDict.t Z string)
    (dpi : Z) :
  match draw_image_with_bboxes open_image st img_path anns categories_by_id
          color_map dpi,
        draw_image_with_bboxes open_image [] img_path anns categories_by_id
          color_map dpi with
  | Ok (fig, _), Ok (fig0, _) =>
      fig_number fig = next_fig_number st /\
      fig_figsize fig = fig_figsize fig0 /\ fig_dpi fig = fig_dpi fig0 /\
      fig_image fig = fig_image fig0 /\ fig_artists fig = fig_artists fig0
  | Raise e, Raise e0 => e = e0
  | _, _ => False
  end.
Proof.
  unfold draw_image_with_bboxes.
  destruct (open_image img_path) as [msg|im]; simpl; [reflexivity|].
  destruct (true_div (im_width im) dpi) as [fw|e]; simpl; [|reflexivity].
  destruct (true_div (im_height im) dpi) as [fh|e]; simpl; [|reflexivity].
  destruct (draw_anns im categories_by_id color_map anns) as [arts|e]; simpl;
    [|reflexivity].
  repeat split.
Qed.

(** C10. Two invocations of the Renderer on the same image, annotations,
    category index, color map and resolution end the same way whatever state
    matplotlib is in (in particular the state the first invocation left):
    both fail with the same error, or both return figures of the same size
    and resolution showing the same image under the same artists, box for
    box. *)
Theorem draw_image_with_bboxes_deterministic
    (open_image : string -> string + PILImage) (st1 st2 : PltState)
    (img_path : string) (anns : list Annotation)
    (categories_by_id : PyDict.t Z Category) (color_map : PyDict.t Z string)
    (dpi : Z) :
  match draw_image_with_bboxes open_image st1 img_path anns categories_by_id
          color_map dpi,
        draw_image_with_bboxes open_image st2 img_path anns categories_by_id
          color_map dpi with
  | Ok (fig1, _), Ok (fig2, _) =>
      fig_figsize fig1 = fig_figsize fig2 /\ fig_dpi fig1 = fig_dpi fig2 /\
      fig_image fig1 = fig_image fig2 /\
      fig_artists fig1 = fig_artists fig2 /\
      rectangles (fig_artists fig1) = rectangles (fig_artists fig2)
  | Raise e1, Raise e2 => e1 = e2
  | _, _ => False
  end.
Proof.
  pose proof (draw_image_with_bboxes_state open_image st1 img_path anns
                categories_by_id color_map dpi) as H1.
  pose proof (draw_image_with_bboxes_state open_image st2 img_path anns
                categories_by_id color_map dpi) as H2.
  destruct (draw_image_with_bboxes open_image st1 _ _ _ _ _) as [[fig1 st1']|e1],
           (draw_image_with_bboxes open_image st2 _ _ _ _ _) as [[fig2 st2']|e2],
           (draw_image_with_bboxes open_image [] _ _ _ _ _) as [[fig0 st0]|e0];
    try contradiction.
  - destruct H1 as (_ & -> & -> & -> & ->), H2 as (_ & -> & -> & -> & ->).
    repeat split.
  - congruence.
Qed.

(** The global state does show in the result: a second figure drawn while
    the first is still open gets the next number. *)
Example second_figure_number :
  match draw_image_with_bboxes (open_image (demo_world [] [])) [] "data/a.png"
          [] [] [] 120 with
  | Ok (fig1, st1) =>
      match draw_image_with_bboxes (open_image (demo_world [] [])) st1
              "data/a.png" [] [] [] 120 with
      | Ok (fig2, _) => fig_number fig1 = 1%nat /\ fig_number fig2 = 2%nat
      | Raise _ => False
      end
  | Raise _ => False
  end.
Proof. split; reflexivity. Qed.

(** ** Subset filter *)

Lemma lstrip_with_all (p : ascii -> bool) (s : string) :
  free_of (fun c => negb (p c)) s = true -> lstrip_with p s = "".
Proof.
  induction s as [|c s IH]; [reflexivity|]. simpl.
  intros H. apply andb_prop in H as [Hc Hs].
  rewrite negb_involutive in Hc. rewrite Hc. now apply IH.
Qed.

Lemma strip_blank (s : string) : blank s -> strip s = "".
Proof.
  intros H. unfold strip, strip_with. now rewrite lstrip_with_all.
Qed.

Lemma split_nonempty (sep : ascii) (s : string) : split sep s <> [].
Proof.
  destruct s as [|c s]; simpl; [discriminate|].
  destruct (Ascii.eqb c sep); [discriminate|].
  destruct (split sep s); discriminate.
Qed.

Lemma concat_cons (sep x : string) (l : list string) :
  l <> [] -> String.concat sep (x :: l) = x +:+ sep +:+ String.concat sep l.
Proof. destruct l; [contradiction | reflexivity]. Qed.

(** Splitting cuts at the separators and nowhere else. *)
Lemma join_split (sep : ascii) (s : string) :
  join (String sep "") (split sep s) = s.
Proof.
  unfold join. induction s as [|c s IH]; [reflexivity|]. simpl.
  destruct (Ascii.eqb_spec c sep) as [->|Hne].
  - rewrite concat_cons by apply split_nonempty. now rewrite IH.
  - destruct (split sep s) as [|h t] eqn:Hs; [now apply split_nonempty in Hs|].
    destruct t as [|h' t].
    + simpl in *. now rewrite IH.
    + rewrite concat_cons by discriminate.
      rewrite concat_cons in IH by discriminate.
      rewrite append_cons. now rewrite IH.
Qed.

Lemma split_free_of_sep (sep : ascii) (s : string) :
  Forall (fun entry => free_of (fun c => Ascii.eqb c sep) entry = true) (split sep s).
Proof.
  induction s as [|c s IH]; simpl; [repeat constructor|].
  destruct (Ascii.eqb c sep) eqn:Hc.
  - constructor; [reflexivity | exact IH].
  - destruct (split sep s) as [|h t]; [repeat constructor; simpl; now rewrite Hc|].
    inversion IH as [|? ? Hh Ht]; subst.
    constructor; [|exact Ht]. simpl. now rewrite Hc, Hh.
Qed.

Lemma parse_subset_elem (s name : string) :
  name ∈ parse_subset s <->
  name <> "" /\ exists entry, entry ∈ split "," s /\ name = strip entry.
Proof.
  unfold parse_subset. rewrite list_elem_of_fmap. split.
  - intros (entry & -> & Hin). apply list_elem_of_In, filter_In in Hin as [Hin Hne].
    apply negb_true_iff, String.eqb_neq in Hne.
    split; [exact Hne|]. exists entry. split; [now apply list_elem_of_In | reflexivity].
  - intros (Hne & entry & Hin & ->). exists entry. split; [reflexivity|].
    apply list_elem_of_In, filter_In. split; [now apply list_elem_of_In|].
    now apply negb_true_iff, String.eqb_neq.
Qed.

Lemma parse_subset_blank (s : string) :
  Forall blank (split "," s) -> parse_subset s = [].
Proof.
  intros H. unfold parse_subset.
  induction (split "," s) as [|e l IH]; [reflexivity|].
  inversion H as [|? ? He Hl]; subst. simpl.
  rewrite (strip_blank e He). simpl. now apply IH.
Qed.

Lemma process_images_no_filter (w : World) (args : Args) (sub : option string)
    (ai : PyDict.t Z (list Annotation)) (ci : PyDict.t Z Category)
    (cm : PyDict.t Z string) (items : list (Z * Image)) (st : RunState) :
  process_images w (with_subset args sub) ai ci cm (Some []) st items
  = process_images w (with_subset args None) ai ci cm None st items.
Proof.
  revert st. induction items as [|item items IH]; intros st; [reflexivity|].
  simpl.
  change (process_image w (with_subset args sub) ai ci cm (Some []) st item)
    with (process_image w (with_subset args None) ai ci cm None st item).
  destruct (process_image _ _ _ _ _ _ st item) as [st' [[]|e]]; [apply IH | reflexivity].
Qed.

(** C3. A non-empty filter all of whose comma-separated entries are empty or
    blank parses to the empty set; then no file name is filtered out, and the
    whole run goes as it does without a filter. *)
Theorem blank_subset_filters_nothing (s : string) :
  s <> "" -> Forall blank (split "," s) ->
  allowed_names_of (Some s) = Some [] /\
  (forall file_name, filtered_out (allowed_names_of (Some s)) file_name = false) /\
  (forall w args p,
     main w (with_subset args (Some s)) p = main w (with_subset args None) p).
Proof.
  intros Hne Hblank.
  assert (allowed_names_of (Some s) = Some []) as Hallowed.
  { unfold allowed_names_of. rewrite (proj2 (String.eqb_neq s "") Hne).
    now rewrite parse_subset_blank. }
  split; [exact Hallowed|]. split.
  - intros file_name. now rewrite Hallowed.
  - intros w args p. unfold main.
    change (arg_subset (with_subset args (Some s))) with (Some s).
    rewrite Hallowed.
    change (arg_folder (with_subset args (Some s))) with (arg_folder args).
    change (arg_folder (with_subset args None)) with (arg_folder args).
    destruct (is_directory w (arg_folder args)); simpl; [|reflexivity].
    change (init_pipeline w (with_subset args (Some s)))
      with (init_pipeline w (with_subset args None)).
    destruct (init_pipeline w (with_subset args None)) as [[[[ii ai] ci] cm]|e];
      [|reflexivity].
    change (prepare_save w (with_subset args (Some s)))
      with (prepare_save w (with_subset args None)).
    destruct (prepare_save w (with_subset args None) (initial_state p))
      as [st0 [[]|e]]; [|reflexivity].
    now rewrite process_images_no_filter.
Qed.

Lemma blank_subset_filters_nothing_witness :
  allowed_names_of (Some " , ") = Some [] /\
  (forall file_name, filtered_out (allowed_names_of (Some " , ")) file_name = false) /\
  (forall w args p,
     main w (with_subset args (Some " , ")) p = main w (with_subset args None) p).
Proof.
  apply blank_subset_filters_nothing.
  - discriminate.
  - repeat constructor.
Defined.

Example comma_subset_filters_nothing :
  allowed_names_of (Some ",") = Some [] /\
  processed (fst (main (demo_world [] []) (demo_args (Some ",")) [])) = 3%nat.
Proof. split; reflexivity. Qed.


Section Filtering.
Variable w : World.
Variable args : Args.
Variable anns_by_image : PyDict.t Z (list Annotation).
Variable categories_by_id : PyDict.t Z Category.
Variable color_map : PyDict.t Z string.

Lemma filtered_out_nonempty (names : list string) (file_name : string) :
  names <> [] ->
  filtered_out (Some names) file_name = negb (bool_decide (file_name ∈ names)).
Proof. destruct names; [contradiction | reflexivity]. Qed.

(** An image the filter rejects leaves no trace. *)
Lemma process_image_filtered (names : list string) (st : RunState)
    (item : Z * Image) :
  names <> [] -> img_file_name item.2 ∉ names ->
  process_image w args anns_by_image categories_by_id color_map (Some names)
    st item = (st, Ok ()).
Proof.
  intros Hne Hnin. destruct item as [img_id img]. unfold process_image.
  rewrite filtered_out_nonempty by exact Hne.
  now rewrite bool_decide_eq_false_2.
Qed.

Lemma process_images_filtered (names : list string) (items : list (Z * Image))
    (st : RunState) :
  names <> [] -> Forall (fun item => img_file_name item.2 ∉ names) items ->
  process_images w args anns_by_image categories_by_id color_map (Some names)
    st items = (st, Ok ()).
Proof.
  intros Hne Hall. induction Hall as [|item items Hitem _ IH]; [reflexivity|].
  simpl. now rewrite process_image_filtered.
Qed.

(** An image the filter accepts is treated as without a filter. *)
Lemma process_image_selected (names : list string) (st : RunState)
    (item : Z * Image) :
  names <> [] -> img_file_name item.2 ∈ names ->
  process_image w args anns_by_image categories_by_id color_map (Some names)
    st item
  = process_image w args anns_by_image categories_by_id color_map None st item.
Proof.
  intros Hne Hin. destruct item as [img_id img]. unfold process_image.
  rewrite filtered_out_nonempty by exact Hne.
  now rewrite bool_decide_eq_true_2.
Qed.

(** The filtered loop is the loop without a filter over the selected
    images. *)
Lemma process_images_selected (names : list string) (items : list (Z * Image)) :
  names <> [] ->
  forall st,
    process_images w args anns_by_image categories_by_id color_map (Some names)
      st items
    = process_images w args anns_by_image categories_by_id color_map None
        st (selected names items).
Proof.
  intros Hne. induction items as [|item items IH]; intros st; [reflexivity|].
  unfold selected. cbn [List.filter process_images]. fold (selected names items).
  destruct (decide (img_file_name item.2 ∈ names)) as [Hin|Hnin].
  - rewrite bool_decide_eq_true_2 by exact Hin. cbn [process_images].
    rewrite process_image_selected by assumption.
    destruct (process_image _ _ _ _ _ None st item) as [st' [[]|e]];
      [apply IH | reflexivity].
  - rewrite bool_decide_eq_false_2 by exact Hnin.
    rewrite process_image_filtered by assumption. apply IH.
Qed.

Lemma process_images_with_subset (sub : option string)
    (allowed_names : option (list string)) (items : list (Z * Image)) :
  forall st,
    process_images w (with_subset args sub) anns_by_image categories_by_id
      color_map allowed_names st items
    = process_images w args anns_by_image categories_by_id color_map
        allowed_names st items.
Proof.
  induction items as [|item items IH]; intros st; [reflexivity|].
  cbn [process_images].
  change (process_image w (with_subset args sub) anns_by_image categories_by_id
            color_map allowed_names st item)
    with (process_image w args anns_by_image categories_by_id color_map
            allowed_names st item).
  destruct (process_image _ _ _ _ _ _ st item) as [st' [[]|e]];
    [apply IH | reflexivity].
Qed.
End Filtering.

Lemma selected_agree (names names' : list string) (items : list (Z * Image)) :
  Forall (fun item => img_file_name item.2 ∈ names <->
                      img_file_name item.2 ∈ names') items ->
  selected names items = selected names' items.
Proof.
  intros Hall. unfold selected. induction Hall as [|item items Hitem _ IH];
    [reflexivity|].
  simpl. rewrite IH. now rewrite (bool_decide_ext _ _ Hitem).
Qed.

(** C2, amended.  A filter that names at least one file is cut at its commas
    into entries, each trimmed of surrounding whitespace, the empty ones
    dropped.  An image whose file name is not among the resulting names is
    passed over without any effect, so an image is processed only if its file
    name is one of them: the run is the run without a filter over the images
    whose file name is among the names.  Entries that match no image are
    ignored and raise nothing: two filters that pick the same images give the
    same run.  And when no image of the annotation set bears one of the
    names, the run processes nothing, reports so on the error stream and ends
    normally. *)
Theorem subset_filter (w : World) (args : Args) (s : string) :
  arg_subset args = Some s -> parse_subset s <> [] ->
  join "," (split "," s) = s /\
  (forall name, name ∈ parse_subset s <->
     name <> "" /\ exists entry, entry ∈ split "," s /\ name = strip entry) /\
  allowed_names_of (arg_subset args) = Some (parse_subset s) /\
  (forall ai ci cm st item st' r,
     process_image w args ai ci cm (allowed_names_of (arg_subset args)) st item
       = (st', r) ->
     processed st' <> processed st -> img_file_name item.2 ∈ parse_subset s) /\
  (forall ai ci cm st item,
     img_file_name item.2 ∉ parse_subset s ->
     process_image w args ai ci cm (allowed_names_of (arg_subset args)) st item
       = (st, Ok ())) /\
  (forall p ii ai ci cm st0,
     is_directory w (arg_folder args) = true ->
     init_pipeline w args = Ok (ii, ai, ci, cm) ->
     prepare_save w args (initial_state p) = (st0, Ok ()) ->
     Forall (fun item => img_file_name item.2 ∉ parse_subset s) (PyDict.items ii) ->
     main w args p = (emit st0 (Stderr nothing_processed_msg), Returned) /\
     processed (fst (main w args p)) = 0%nat /\
     exit_code (snd (main w args p)) = 0) /\
  (forall ai ci cm st items,
     process_images w args ai ci cm (allowed_names_of (arg_subset args)) st items
     = process_images w args ai ci cm None st (selected (parse_subset s) items)) /\
  (forall p ii ai ci cm st0,
     is_directory w (arg_folder args) = true ->
     init_pipeline w args = Ok (ii, ai, ci, cm) ->
     prepare_save w args (initial_state p) = (st0, Ok ()) ->
     main w args p =
     match process_images w args ai ci cm None st0
             (selected (parse_subset s) (PyDict.items ii)) with
     | (st, Ok _) => (report st, Returned)
     | (st, Raise e) => (st, Uncaught e)
     end) /\
  (forall p s',
     parse_subset s' <> [] ->
     (forall ii ai ci cm,
        init_pipeline w args = Ok (ii, ai, ci, cm) ->
        Forall (fun item => img_file_name item.2 ∈ parse_subset s <->
                            img_file_name item.2 ∈ parse_subset s')
               (PyDict.items ii)) ->
     main w (with_subset args (Some s')) p = main w args p).
Proof.
  intros Hsub Hne.
  assert (allowed_names_of (arg_subset args) = Some (parse_subset s)) as Hallowed.
  { rewrite Hsub. unfold allowed_names_of.
    destruct (String.eqb_spec s "") as [->|_]; [contradiction | reflexivity]. }
  split; [apply join_split|]. split; [apply parse_subset_elem|].
  split; [exact Hallowed|]. rewrite Hallowed.
  split; [|split; [|split; [|split; [|split]]]].
  - intros ai ci cm st item st' r Hrun Hprocessed.
    destruct (decide (img_file_name item.2 ∈ parse_subset s)) as [Hin|Hnin];
      [exact Hin|].
    rewrite process_image_filtered in Hrun by assumption.
    injection Hrun as <- _. contradiction.
  - intros ai ci cm st item Hnin. now apply process_image_filtered.
  - intros p ii ai ci cm st0 Hdir Hinit Hsave Hall.
    assert (main w args p = (emit st0 (Stderr nothing_processed_msg), Returned))
      as Hmain.
    { unfold main. rewrite Hdir, Hinit, Hsave, Hallowed. simpl.
      rewrite process_images_filtered by assumption.
      assert (st0.(processed) = 0%nat /\ st0.(missing_images) = []) as [Hp Hm].
      { unfold prepare_save in Hsave.
        destruct (arg_save args) as [dir|]; [destruct (mkdir w dir)|];
          injection Hsave as <-; split; reflexivity. }
      unfold report. rewrite Hm, Hp. reflexivity. }
    rewrite Hmain. split; [reflexivity|]. split; [|reflexivity].
    unfold prepare_save in Hsave.
    destruct (arg_save args) as [dir|]; [destruct (mkdir w dir)|];
      injection Hsave as <-; reflexivity.
  - intros ai ci cm st items. now apply process_images_selected.
  - intros p ii ai ci cm st0 Hdir Hinit Hsave.
    unfold main. rewrite Hdir, Hinit, Hsave, Hallowed. cbn [negb].
    rewrite process_images_selected by exact Hne.
    now destruct (process_images _ _ _ _ _ None st0 _) as [st [[]|e]].
  - intros p s' Hne' Hagree. unfold main.
    change (arg_folder (with_subset args (Some s'))) with (arg_folder args).
    destruct (is_directory w (arg_folder args)); cbn [negb]; [|reflexivity].
    change (init_pipeline w (with_subset args (Some s')))
      with (init_pipeline w args).
    destruct (init_pipeline w args) as [[[[ii ai] ci] cm]|e] eqn:Hinit;
      [|reflexivity].
    change (prepare_save w (with_subset args (Some s')))
      with (prepare_save w args).
    destruct (prepare_save w args (initial_state p)) as [st0 [[]|e]];
      [|reflexivity].
    change (arg_subset (with_subset args (Some s'))) with (Some s').
    assert (allowed_names_of (Some s') = Some (parse_subset s')) as ->.
    { unfold allowed_names_of.
      destruct (String.eqb_spec s' "") as [->|_]; [contradiction | reflexivity]. }
    rewrite Hallowed, process_images_with_subset.
    rewrite !process_images_selected by assumption.
    now rewrite (selected_agree _ _ _ (Hagree ii ai ci cm eq_refl)).
Qed.

Lemma subset_filter_witness :
  main (demo_world [] []) (demo_args (Some "zzz.png, nothing.jpg")) []
  = (emit (initial_state []) (Stderr nothing_processed_msg), Returned).
Proof.
  destruct (subset_filter (demo_world [] [])
              (demo_args (Some "zzz.png, nothing.jpg"))
              "zzz.png, nothing.jpg" eq_refl) as (_ & _ & _ & _ & _ & H & _);
    [discriminate|].
  assert (init_pipeline (demo_world [] [])
            (demo_args (Some "zzz.png, nothing.jpg"))
          = Ok (images_index demo_images, anns_index demo_anns,
                categories_index demo_cats, [(1, "red"); (3, "green"); (5, "red")]))
    as Hinit by reflexivity.
  refine (proj1 (H [] _ _ _ _ _ eq_refl Hinit eq_refl _)).
  repeat apply Forall_cons; try apply Forall_nil;
    apply (bool_decide_unpack _); vm_compute; exact I.
Defined.

(** An entry that matches no image changes nothing. *)
Example unmatched_entry_ignored :
  main (demo_world [] []) (demo_args (Some "a.png, zzz.png")) []
  = main (demo_world [] []) (demo_args (Some "a.png")) [] /\
  processed (fst (main (demo_world [] []) (demo_args (Some "a.png, zzz.png")) []))
  = 1%nat.
Proof. split; reflexivity. Qed.

(** C2 as stated fails on the filter ",": it parses to the empty set, of
    which "a.png" is no member, and yet "a.png" and the other two images are
    processed. *)
Lemma comma_subset_processes_all :
  parse_subset "," = [] /\
("a.png" ∉ parse_subset ",") /\
  processed
    (fst (process_image (demo_world [] []) (demo_args (Some ","))
            (anns_index demo_anns) (categories_index demo_cats)
            [(1, "red"); (3, "green"); (5, "red")]
            (allowed_names_of (Some ",")) (initial_state [])
            (1, {| img_id := 1; img_file_name := "a.png" |}))) = 1%nat /\
  processed (fst (main (demo_world [] []) (demo_args (Some ",")) [])) = 3%nat.
Proof.
  split; [reflexivity|]. split; [apply not_elem_of_nil|].
  split; reflexivity.
Qed.


(** ** Failures while rendering *)

Section Running.
Variable w : World.
Variable args : Args.
Variable anns_by_image : PyDict.t Z (list Annotation).
Variable categories_by_id : PyDict.t Z Category.
Variable color_map : PyDict.t Z string.
Variable allowed_names : option (list string).

Lemma process_images_app (st : RunState) (pre rest : list (Z * Image)) :
  process_images w args anns_by_image categories_by_id color_map allowed_names
    st (pre ++ rest) =
  match process_images w args anns_by_image categories_by_id color_map
          allowed_names st pre with
  | (st', Ok _) =>
      process_images w args anns_by_image categories_by_id color_map
        allowed_names st' rest
  | (st', Raise e) => (st', Raise e)
  end.
Proof.
  revert st. induction pre as [|item pre IH]; intros st; [reflexivity|].
  simpl. destruct (process_image _ _ _ _ _ _ st item) as [st' [[]|e]];
    [apply IH | reflexivity].
Qed.

Lemma process_images_cons (st : RunState) (item : Z * Image)
    (rest : list (Z * Image)) :
  process_images w args anns_by_image categories_by_id color_map allowed_names
    st (item :: rest) =
  match process_image w args anns_by_image categories_by_id color_map
          allowed_names st item with
  | (st', Ok _) =>
      process_images w args anns_by_image categories_by_id color_map
        allowed_names st' rest
  | (st', Raise e) => (st', Raise e)
  end.
Proof. reflexivity. Qed.

(** The image decoder's failure leaves the Renderer as a [RuntimeError]. *)
Lemma draw_undecodable (p : PltState) (img_path e : string)
    (anns : list Annotation) :
  open_image w img_path = inl e ->
  draw_image_with_bboxes (open_image w) p img_path anns categories_by_id
    color_map (arg_dpi args) = Raise (RuntimeError (open_failed_msg img_path e)).
Proof. intros H. unfold draw_image_with_bboxes. now rewrite H. Qed.

(** The loop has no handler: the turn ends with the Renderer's error. *)
Lemma process_image_undecodable (st : RunState) (img_id : Z) (img : Image)
    (e : string) :
  let img_path := joinpath w (arg_folder args) (img_file_name img) in
  filtered_out allowed_names (img_file_name img) = false ->
  path_exists w img_path = true ->
  open_image w img_path = inl e ->
  process_image w args anns_by_image categories_by_id color_map allowed_names
    st (img_id, img) = (st, Raise (RuntimeError (open_failed_msg img_path e))).
Proof.
  intros img_path Hallowed Hexists Hopen. unfold process_image.
  fold img_path. rewrite Hallowed, Hexists. simpl.
  now rewrite (draw_undecodable _ _ e _ Hopen).
Qed.

(** A file that is not there is recorded and passed over. *)
Lemma process_image_missing (st : RunState) (img_id : Z) (img : Image) :
  filtered_out allowed_names (img_file_name img) = false ->
  path_exists w (joinpath w (arg_folder args) (img_file_name img)) = false ->
  process_image w args anns_by_image categories_by_id color_map allowed_names
    st (img_id, img)
  = ({| log := log st; plt := plt st; processed := processed st;
        missing_images := missing_images st ++ [img_file_name img] |}, Ok ()).
Proof.
  intros Hallowed Hexists. unfold process_image.
  now rewrite Hallowed, Hexists.
Qed.
End Running.

(** C1, amended.  With the folder located, the annotation file loaded, the
    indices and colors built and the save directory ready, an image that is
    eligible and present but does not decode makes the Renderer raise a
    [RuntimeError] naming the path and the cause, which [main] does not
    catch: the run ends there, in the state the images before it left, with
    the later images untouched and no summary printed, and the exit status is
    1. *)
Theorem decode_failure_aborts (w : World) (args : Args) (p : PltState)
    (images_by_id : PyDict.t Z Image)
    (anns_by_image : PyDict.t Z (list Annotation))
    (categories_by_id : PyDict.t Z Category) (color_map : PyDict.t Z string)
    (st0 st1 : RunState) (pre post : list (Z * Image)) (img_id : Z)
    (img : Image) (e : string) :
  let allowed_names := allowed_names_of (arg_subset args) in
  let img_path := joinpath w (arg_folder args) (img_file_name img) in
  is_directory w (arg_folder args) = true ->
  init_pipeline w args
    = Ok (images_by_id, anns_by_image, categories_by_id, color_map) ->
  prepare_save w args (initial_state p) = (st0, Ok ()) ->
  PyDict.items images_by_id = pre ++ (img_id, img) :: post ->
  process_images w args anns_by_image categories_by_id color_map allowed_names
    st0 pre = (st1, Ok ()) ->
  filtered_out allowed_names (img_file_name img) = false ->
  path_exists w img_path = true ->
  open_image w img_path = inl e ->
  main w args p = (st1, Uncaught (RuntimeError (open_failed_msg img_path e))) /\
  exit_code (snd (main w args p)) = 1.
Proof.
  intros allowed_names img_path Hdir Hinit Hsave Hitems Hpre Hallowed Hexists Hopen.
  assert (main w args p
          = (st1, Uncaught (RuntimeError (open_failed_msg img_path e)))) as Hmain.
  { unfold main. rewrite Hdir, Hinit, Hsave. cbn [negb].
    fold allowed_names. rewrite Hitems, process_images_app, Hpre.
    rewrite process_images_cons.
    now rewrite (process_image_undecodable w args anns_by_image categories_by_id
                   color_map allowed_names st1 img_id img e Hallowed Hexists Hopen). }
  rewrite Hmain. split; reflexivity.
Qed.

Lemma decode_failure_aborts_witness :
  exists st1,
    main (demo_world ["data/b.png"] []) (demo_args None) []
    = (st1, Uncaught (RuntimeError
                        "Failed to open image 'data/b.png': cannot identify image file")) /\
    processed st1 = 1%nat.
Proof.
  eexists. split.
  - refine (proj1 (decode_failure_aborts (demo_world ["data/b.png"] [])
                     (demo_args None) []
                     (images_index demo_images) (anns_index demo_anns)
                     (categories_index demo_cats)
                     [(1, "red"); (3, "green"); (5, "red")]
                     (initial_state []) _
                     [(1, {| img_id := 1; img_file_name := "a.png" |})]
                     [(3, {| img_id := 3; img_file_name := "c.png" |})]
                     2 {| img_id := 2; img_file_name := "b.png" |}
                     "cannot identify image file"
                     eq_refl eq_refl eq_refl eq_refl _ eq_refl eq_refl eq_refl)).
    vm_compute. reflexivity.
  - reflexivity.
Defined.

(** C1 as stated fails: with the second of three images undecodable the run
    initialises, processes the first image, and ends on the uncaught error
    with exit status 1, the third image never reached. *)
Lemma undecodable_image_is_fatal :
  init_pipeline (demo_world ["data/b.png"] []) (demo_args None)
    = Ok (images_index demo_images, anns_index demo_anns,
          categories_index demo_cats, [(1, "red"); (3, "green"); (5, "red")]) /\
  snd (main (demo_world ["data/b.png"] []) (demo_args None) [])
    = Uncaught (RuntimeError
                  "Failed to open image 'data/b.png': cannot identify image file") /\
  exit_code (snd (main (demo_world ["data/b.png"] []) (demo_args None) [])) = 1 /\
  processed (fst (main (demo_world ["data/b.png"] []) (demo_args None) [])) = 1%nat /\
  processed (fst (main (demo_world [] []) (demo_args None) [])) = 3%nat.
Proof. repeat split; reflexivity. Qed.

(** A missing file, by contrast, does not stop the run. *)
Example missing_image_is_skipped :
  snd (main (demo_world [] ["data/b.png"]) (demo_args None) []) = Returned /\
  processed (fst (main (demo_world [] ["data/b.png"]) (demo_args None) [])) = 2%nat /\
  missing_images (fst (main (demo_world [] ["data/b.png"]) (demo_args None) []))
    = ["b.png"].
Proof. repeat split; reflexivity. Qed.


(** ** Whole runs *)

Lemma fold_emit_log (st : RunState) (names : list string) :
  log (fold_left (fun st nm => emit st (Stderr ("  - " +:+ nm))) names st)
  = log st ++ map (fun nm => Stderr ("  - " +:+ nm)) names.
Proof.
  revert st. induction names as [|nm names IH]; intros st; simpl.
  - now rewrite app_nil_r.
  - rewrite IH. simpl. now rewrite <- app_assoc.
Qed.

Lemma fold_emit_processed (st : RunState) (names : list string) :
  processed (fold_left (fun st nm => emit st (Stderr ("  - " +:+ nm))) names st)
  = processed st.
Proof.
  revert st. induction names as [|nm names IH]; intros st; simpl;
    [reflexivity | now rewrite IH].
Qed.

(** What the closing report prints when nothing was processed. *)
Lemma report_nothing_processed (st : RunState) :
  processed st = 0%nat ->
  log (report st) =
  log st ++
  match missing_images st with
  | [] => []
  | names => Stderr missing_header :: map (fun nm => Stderr ("  - " +:+ nm)) names
  end ++ [Stderr nothing_processed_msg].
Proof.
  intros Hp. unfold report. destruct (missing_images st) as [|nm names] eqn:Hm.
  - rewrite Hp. reflexivity.
  - rewrite bool_decide_eq_true_2 by now rewrite fold_emit_processed.
    unfold emit at 1. simpl log. rewrite fold_emit_log. simpl.
    now rewrite <- !app_assoc.
Qed.

Section Skipping.
Variable w : World.
Variable args : Args.
Variable anns_by_image : PyDict.t Z (list Annotation).
Variable categories_by_id : PyDict.t Z Category.
Variable color_map : PyDict.t Z string.
Variable allowed_names : option (list string).

Lemma process_image_rejected (st : RunState) (img_id : Z) (img : Image) :
  filtered_out allowed_names (img_file_name img) = true ->
  process_image w args anns_by_image categories_by_id color_map allowed_names
    st (img_id, img) = (st, Ok ()).
Proof. intros Hf. unfold process_image. now rewrite Hf. Qed.

Lemma process_images_all_missing (items : list (Z * Image)) (st : RunState) :
  Forall (fun item => path_exists w (joinpath w (arg_folder args)
                                       (img_file_name item.2)) = false) items ->
  process_images w args anns_by_image categories_by_id color_map allowed_names
    st items
  = ({| log := log st; plt := plt st; processed := processed st;
        missing_images := missing_images st ++ eligible_names allowed_names items |},
     Ok ()).
Proof.
  intros Hall. revert st. induction Hall as [|[img_id img] items Hx _ IH]; intros st.
  - unfold eligible_names. simpl. rewrite app_nil_r. now destruct st.
  - rewrite process_images_cons. unfold eligible_names in *. simpl in Hx.
    cbn [List.filter snd].
    destruct (filtered_out allowed_names (img_file_name img)) eqn:Hf.
    + rewrite process_image_rejected by exact Hf. apply IH.
    + rewrite process_image_missing by assumption. rewrite IH.
      cbn [negb map snd log plt processed missing_images].
      now rewrite <- app_assoc.
Qed.
End Skipping.

(** X1. Missing image files do not stop the run.  When none of the listed image
    files exists, every one that passes the filter is recorded as missing,
    nothing is rendered, the run prints the list of missing names and the
    nothing-processed note on the error stream, and ends normally with exit
    status 0. *)
Theorem missing_images_nonfatal (w : World) (args : Args) (p : PltState)
    (images_by_id : PyDict.t Z Image)
    (anns_by_image : PyDict.t Z (list Annotation))
    (categories_by_id : PyDict.t Z Category) (color_map : PyDict.t Z string)
    (st0 : RunState) :
  let allowed_names := allowed_names_of (arg_subset args) in
  let missing := eligible_names allowed_names (PyDict.items images_by_id) in
  is_directory w (arg_folder args) = true ->
  init_pipeline w args
    = Ok (images_by_id, anns_by_image, categories_by_id, color_map) ->
  prepare_save w args (initial_state p) = (st0, Ok ()) ->
  Forall (fun item => path_exists w (joinpath w (arg_folder args)
                                       (img_file_name item.2)) = false)
         (PyDict.items images_by_id) ->
  snd (main w args p) = Returned /\
  exit_code (snd (main w args p)) = 0 /\
  processed (fst (main w args p)) = 0%nat /\
  missing_images (fst (main w args p)) = missing /\
  log (fst (main w args p)) =
    log st0 ++
    match missing with
    | [] => []
    | names => Stderr missing_header :: map (fun nm => Stderr ("  - " +:+ nm)) names
    end ++ [Stderr nothing_processed_msg].
Proof.
  intros allowed_names missing Hdir Hinit Hsave Hall.
  assert (processed st0 = 0%nat /\ missing_images st0 = []) as [Hp Hm].
  { unfold prepare_save in Hsave.
    destruct (arg_save args) as [dir|]; [destruct (mkdir w dir)|];
      injection Hsave as <-; split; reflexivity. }
  unfold main. rewrite Hdir, Hinit, Hsave. cbn [negb].
  fold allowed_names. rewrite process_images_all_missing by exact Hall.
  rewrite Hm, Hp. simpl app. fold missing. cbn [fst snd].
  split; [reflexivity|]. split; [reflexivity|].
  rewrite report_nothing_processed by reflexivity. cbn [log missing_images].
  split; [|split; [|now destruct missing]].
  - unfold report. cbn [missing_images processed].
    destruct missing; [reflexivity|].
    rewrite bool_decide_eq_true_2 by now rewrite fold_emit_processed.
    unfold emit at 1. cbn [processed]. apply fold_emit_processed.
  - unfold report. cbn [missing_images processed].
    assert (forall names st, missing_images
              (fold_left (fun st nm => emit st (Stderr ("  - " +:+ nm))) names st)
              = missing_images st) as Hfold.
    { induction names as [|nm names IH]; intros st; simpl;
        [reflexivity | now rewrite IH]. }
    destruct missing as [|nm names] eqn:Hmissing; [reflexivity|].
    rewrite bool_decide_eq_true_2 by now rewrite fold_emit_processed.
    unfold emit at 1. cbn [missing_images]. now rewrite Hfold.
Qed.

Lemma missing_images_nonfatal_witness :
  snd (main (demo_world [] ["data/a.png"; "data/b.png"; "data/c.png"])
         (demo_args (Some "a.png,c.png")) []) = Returned /\
  log (fst (main (demo_world [] ["data/a.png"; "data/b.png"; "data/c.png"])
              (demo_args (Some "a.png,c.png")) []))
  = [Stderr missing_header; Stderr "  - a.png"; Stderr "  - c.png";
     Stderr nothing_processed_msg].
Proof.
  destruct (missing_images_nonfatal
              (demo_world [] ["data/a.png"; "data/b.png"; "data/c.png"])
              (demo_args (Some "a.png,c.png")) []
              (images_index demo_images) (anns_index demo_anns)
              (categories_index demo_cats) [(1, "red"); (3, "green"); (5, "red")]
              (initial_state []) eq_refl eq_refl eq_refl)
    as (Hret & _ & _ & _ & Hlog).
  - repeat constructor.
  - split; [exact Hret | exact Hlog].
Defined.



(** X3. A folder that is not a directory ends the run with exit status 1 and one
    line on the error stream; an error of the Locator or the Loader is not
    caught and ends the run with exit status 1 before any image is touched. *)
Theorem main_fatal_errors (w : World) (args : Args) (p : PltState) :
  (is_directory w (arg_folder args) = false ->
     main w args p
     = (emit (initial_state p) (Stderr (folder_error_msg (arg_folder args))),
        SysExit 1)) /\
  (forall e,
     is_directory w (arg_folder args) = true ->
     init_pipeline w args = Raise e ->
     main w args p = (initial_state p, Uncaught e) /\
     exit_code (snd (main w args p)) = 1) /\
  (glob_json w (arg_folder args) = [] ->
     init_pipeline w args
     = Raise (FileNotFoundError (no_json_msg (arg_folder args)))) /\
  (forall coco_path data key,
     find_coco_json (arg_folder args) (glob_json w (arg_folder args)) = Ok coco_path ->
     read_json w (joinpath w (arg_folder args) coco_path) = Ok data ->
     has_key data key = false -> key ∈ required_keys ->
     exists key', init_pipeline w args = Raise (ValueError (missing_msg key'))).
Proof.
  split; [|split; [|split]].
  - intros Hdir. unfold main. now rewrite Hdir.
  - intros e Hdir Hinit.
    assert (main w args p = (initial_state p, Uncaught e)) as Hmain.
    { unfold main. now rewrite Hdir, Hinit. }
    rewrite Hmain. split; reflexivity.
  - intros Hglob. unfold init_pipeline. now rewrite Hglob.
  - intros coco_path data key Hfind Hread Hkey Hin.
    unfold init_pipeline. rewrite Hfind. simpl.
    rewrite (load_coco_read _ _ _ Hread), validate_coco_unfold.
    destruct (check_keys_missing _ _ _ Hin Hkey) as [key' ->]. eauto.
Qed.

Lemma main_fatal_errors_witness :
  main (demo_world [] []) {| arg_folder := "nowhere"; arg_show := false;
                             arg_save := None; arg_subset := None;
                             arg_dpi := 120 |} []
  = (emit (initial_state [])
          (Stderr "Error: folder 'nowhere' does not exist or is not a directory."),
     SysExit 1).
Proof.
  apply (proj1 (main_fatal_errors (demo_world [] [])
                  {| arg_folder := "nowhere"; arg_show := false;
                     arg_save := None; arg_subset := None; arg_dpi := 120 |} [])).
  reflexivity.
Defined.


(** ** Iteration order *)

Lemma remove_dups_head_in (x : Z) (l : list Z) :
  x ∈ l -> remove_dups (x :: l) = remove_dups l.
Proof. intros Hin. simpl. case_decide; [reflexivity | contradiction]. Qed.

Lemma remove_dups_head_notin (x : Z) (l : list Z) :
  x ∉ l -> remove_dups (x :: l) = x :: remove_dups l.
Proof. intros Hnin. simpl. case_decide; [contradiction | reflexivity]. Qed.

(** X4. The images are visited in the order of the "images" section, an id that
    occurs again keeping the place of its first occurrence and the entry of
    its last one. *)
Theorem images_iteration_order (imgs : list Image) :
  PyDict.keys (images_index imgs)
  = reverse (remove_dups (reverse (map img_id imgs))) /\
  NoDup (PyDict.keys (images_index imgs)) /\
  (forall id img, (id, img) ∈ PyDict.items (images_index imgs) ->
     last (filter (fun i => img_id i = id) imgs) = Some img).
Proof.
  split; [|split].
  - unfold images_index, PyDict.comprehension.
    induction imgs as [|img imgs IH] using rev_ind; [reflexivity|].
    rewrite fold_left_app, map_app, reverse_app.
    change (reverse (map img_id [img]) ++ reverse (map img_id imgs))
      with (img_id img :: reverse (map img_id imgs)).
    cbn [fold_left].
    destruct (decide (img_id img ∈ map img_id imgs)) as [Hin|Hnin].
    + rewrite keys_set_in by (apply comprehension_fold_keys; now right).
      rewrite remove_dups_head_in by now apply elem_of_reverse.
      exact IH.
    + rewrite keys_set_notin.
      * rewrite remove_dups_head_notin by now rewrite elem_of_reverse.
        rewrite reverse_cons. now rewrite IH.
      * rewrite comprehension_fold_keys. intros [H|H]; [inversion H | contradiction].
  - apply comprehension_NoDup.
  - intros id img Hin. rewrite <- comprehension_get. fold (images_index imgs).
    unfold PyDict.items in Hin.
    pose proof (comprehension_NoDup img_id imgs) as Hnd.
    fold (images_index imgs) in Hnd. unfold PyDict.keys in Hnd.
    induction (images_index imgs) as [|[k v] d IH]; [inversion Hin|].
    simpl in *. apply NoDup_cons in Hnd as [Hk Hnd].
    apply elem_of_cons in Hin as [[= -> ->]|Hin].
    + now rewrite decide_True.
    + rewrite decide_False; [now apply IH|].
      intros ->. apply Hk. apply list_elem_of_fmap. now exists (id, img).
Qed.

Example images_iteration_order_duplicates :
  PyDict.items (images_index [ {| img_id := 7; img_file_name := "a.png" |};
                               {| img_id := 2; img_file_name := "b.png" |};
                               {| img_id := 7; img_file_name := "c.png" |} ])
  = [ (7, {| img_id := 7; img_file_name := "c.png" |});
      (2, {| img_id := 2; img_file_name := "b.png" |}) ].
Proof. reflexivity. Qed.


(** * Further properties *)

(** ** Locator: what it returns and how it fails *)

Lemma sole_preferred_elem (jsons : list string) (p : string) :
  sole_preferred jsons p -> p ∈ jsons.
Proof.
  intros (l1 & l2 & -> & _). apply elem_of_app. right. left.
Qed.

Lemma filter_preferred_two (jsons : list string) (a b : string) :
  a ∈ jsons -> b ∈ jsons -> a <> b ->
  a ∈ preferred_names -> b ∈ preferred_names ->
  forall p, List.filter is_preferred jsons <> [p].
Proof.
  intros Ha Hb Hab Hpa Hpb p Hf.
  assert (forall q, q ∈ jsons -> q ∈ preferred_names -> q = p) as Hone.
  { intros q Hq Hpq.
    assert (In q (List.filter is_preferred jsons)) as Hin.
    { apply filter_In. split; [now apply list_elem_of_In | now apply is_preferred_true]. }
    rewrite Hf in Hin. destruct Hin as [<-|[]]. reflexivity. }
  apply Hab. now rewrite (Hone a), (Hone b).
Qed.

(** X5. The Locator never invents a path: what it returns is one of the
    candidates, the only one or else the only one with a preferred name.  A
    folder holding both "annotations.json" and "coco.json" is ambiguous.  And
    it fails in two ways only: [FileNotFoundError] on no candidate, and
    [RuntimeError] on several. *)
Theorem find_coco_json_sound (folder : string) (jsons : list string) :
  (forall p, find_coco_json folder jsons = Ok p ->
     p ∈ jsons /\
     (jsons = [p] \/ ((1 < length jsons)%nat /\ sole_preferred jsons p))) /\
  ("annotations.json" ∈ jsons -> "coco.json" ∈ jsons ->
     find_coco_json folder jsons = Raise (RuntimeError (multiple_json_msg jsons))) /\
  (forall e, find_coco_json folder jsons = Raise e ->
     (jsons = [] /\ e = FileNotFoundError (no_json_msg folder)) \/
     ((1 < length jsons)%nat /\ e = RuntimeError (multiple_json_msg jsons))).
Proof.
  split; [|split].
  - intros p. unfold find_coco_json.
    destruct jsons as [|a [|b l]].
    + discriminate.
    + intros [= <-]. split; [left | now left].
    + rewrite bool_decide_eq_false_2 by (simpl; lia).
      rewrite bool_decide_eq_true_2 by (simpl; lia).
      destruct (List.filter is_preferred (a :: b :: l)) as [|q [|q' r]] eqn:Hf;
        try discriminate.
      intros [= <-]. apply filter_preferred_sole in Hf.
      split; [now apply sole_preferred_elem|]. right. split; [simpl; lia | exact Hf].
  - intros Ha Hc. unfold find_coco_json.
    destruct jsons as [|a [|b l]].
    + inversion Ha.
    + apply list_elem_of_singleton in Ha, Hc. congruence.
    + rewrite bool_decide_eq_false_2 by (simpl; lia).
      rewrite bool_decide_eq_true_2 by (simpl; lia).
      destruct (List.filter is_preferred (a :: b :: l)) as [|q [|q' r]] eqn:Hf;
        try reflexivity.
      exfalso.
      apply (filter_preferred_two (a :: b :: l) "annotations.json" "coco.json"
               Ha Hc) with (p := q); try assumption;
        [discriminate | now apply is_preferred_true | now apply is_preferred_true].
  - intros e. unfold find_coco_json.
    destruct jsons as [|a [|b l]].
    + intros [= <-]. now left.
    + discriminate.
    + rewrite bool_decide_eq_false_2 by (simpl; lia).
      rewrite bool_decide_eq_true_2 by (simpl; lia).
      destruct (List.filter is_preferred (a :: b :: l)) as [|q [|q' r]];
        try discriminate; intros [= <-]; right; (split; [simpl; lia | reflexivity]).
Qed.

Lemma find_coco_json_sound_witness :
  find_coco_json "data" ["annotations.json"; "x.json"; "coco.json"]
  = Raise (RuntimeError
             (multiple_json_msg ["annotations.json"; "x.json"; "coco.json"])).
Proof.
  apply (proj1 (proj2 (find_coco_json_sound "data"
                         ["annotations.json"; "x.json"; "coco.json"])));
    apply (bool_decide_unpack _); vm_compute; exact I.
Defined.


(** ** From the folder to the indices *)


Lemma check_keys_raise_first (keys : list string) (data : Coco) (e : exn) :
  check_keys keys data = Raise e ->
  exists key, e = ValueError (missing_msg key) /\ first_missing keys data key.
Proof.
  induction keys as [|k rest IH]; simpl; [discriminate|].
  destruct (has_key data k) eqn:Hk; simpl.
  - intros H. destruct (IH H) as (key & -> & before & after & -> & Hkey & Hbefore).
    exists key. split; [reflexivity|]. exists (k :: before), after.
    split; [reflexivity|]. split; [exact Hkey|].
    intros k' Hk'. apply elem_of_cons in Hk' as [->|Hk']; [exact Hk | now apply Hbefore].
  - intros [= <-]. exists k. split; [reflexivity|]. exists [], rest.
    split; [reflexivity|]. split; [exact Hk|]. intros k' Hk'. inversion Hk'.
Qed.




Example init_pipeline_first_missing :
  init_pipeline
    {| is_directory := fun _ => true; glob_json := fun _ => ["x.json"];
       read_json := fun _ => Ok {| images := None; annotations := Some [];
                                   categories := None; other_keys := [] |};
       rc_colors := None; path_exists := fun _ => true;
       open_image := fun _ => inl ""; mkdir := fun _ => Ok ();
       savefig := fun _ => Ok (); blocking_show := true;
       joinpath := fun a b => a +:+ "/" +:+ b; stem := fun s => s |}
    (demo_args None)
  = Raise (ValueError "COCO file missing 'images' section").
Proof. reflexivity. Qed.


(** ** The annotation groups *)

Section DictItems.
Context {K V : Type} `{EqDecision K}.
Implicit Types (d : PyDict.t K V) (k : K) (v : V).

Lemma get_of_item d k v :
  NoDup (PyDict.keys d) -> (k, v) ∈ PyDict.items d -> PyDict.get d k = Some v.
Proof.
  unfold PyDict.keys, PyDict.items.
  induction d as [|[k' v'] d IH]; intros Hnd Hin; [inversion Hin|].
  simpl in *. apply NoDup_cons in Hnd as [Hk Hnd].
  apply elem_of_cons in Hin as [[= -> ->]|Hin].
  - now rewrite decide_True.
  - rewrite decide_False; [now apply IH|].
    intros ->. apply Hk. apply list_elem_of_fmap. now exists (k, v).
Qed.

Lemma item_of_get d k v : PyDict.get d k = Some v -> (k, v) ∈ PyDict.items d.
Proof.
  unfold PyDict.items. induction d as [|[k' v'] d IH]; simpl; [discriminate|].
  destruct (decide (k' = k)) as [->|Hne].
  - intros [= ->]. left.
  - intros H. right. now apply IH.
Qed.
End DictItems.

(** Appending to a group moves one annotation into the groups. *)
Lemma append_ann_concat (d : PyDict.t Z (list Annotation)) (ann : Annotation) :
  concat (map snd (PyDict.items (append_ann d ann)))
  ≡ₚ concat (map snd (PyDict.items d)) ++ [ann].
Proof.
  unfold append_ann, PyDict.items, PyDict.get_default.
  induction d as [|[k g] d IH]; simpl; [reflexivity|].
  destruct (decide (k = ann_image_id ann)) as [Hk|Hk]; simpl.
  - rewrite <- !app_assoc. apply Permutation_app_head, Permutation_app_comm.
  - rewrite IH. now rewrite app_assoc.
Qed.

Lemma anns_fold_concat (l : list Annotation) (d : PyDict.t Z (list Annotation)) :
  concat (map snd (PyDict.items (fold_left append_ann l d)))
  ≡ₚ concat (map snd (PyDict.items d)) ++ l.
Proof.
  revert d. induction l as [|a l IH]; intros d; simpl.
  - now rewrite app_nil_r.
  - rewrite IH, append_ann_concat, <- app_assoc. reflexivity.
Qed.

Lemma anns_fold_NoDup (l : list Annotation) (d : PyDict.t Z (list Annotation)) :
  NoDup (PyDict.keys d) -> NoDup (PyDict.keys (fold_left append_ann l d)).
Proof.
  revert d. induction l as [|a l IH]; intros d Hd; [exact Hd|].
  simpl. apply IH. unfold append_ann. now apply keys_set_NoDup.
Qed.

Lemma anns_fold_first_occurrences (l : list Annotation) :
  PyDict.keys (anns_index l) = first_occurrences (map ann_image_id l).
Proof.
  unfold anns_index, first_occurrences.
  induction l as [|a l IH] using rev_ind; [reflexivity|].
  rewrite fold_left_app, map_app, reverse_app.
  change (reverse (map ann_image_id [a]) ++ reverse (map ann_image_id l))
    with (ann_image_id a :: reverse (map ann_image_id l)).
  cbn [fold_left]. unfold append_ann at 1.
  destruct (decide (ann_image_id a ∈ map ann_image_id l)) as [Hin|Hnin].
  - rewrite keys_set_in by (apply anns_fold_keys; now right).
    rewrite remove_dups_head_in by now apply elem_of_reverse.
    exact IH.
  - rewrite keys_set_notin.
    + rewrite remove_dups_head_notin by now rewrite elem_of_reverse.
      rewrite reverse_cons. now rewrite IH.
    + rewrite anns_fold_keys. intros [H|H]; [inversion H | contradiction].
Qed.

(** X7. The Indexer's groups partition the annotations: taken together they
    are the annotations section rearranged, nothing lost and nothing
    repeated; no image id has two groups; the groups come in the order in
    which their image ids first occur; and each group is non-empty and holds
    the annotations of its image id in the section's order. *)
Theorem anns_index_partition (anns : list Annotation) :
  concat (map snd (PyDict.items (anns_index anns))) ≡ₚ anns /\
  NoDup (PyDict.keys (anns_index anns)) /\
  PyDict.keys (anns_index anns) = first_occurrences (map ann_image_id anns) /\
  (forall id group, (id, group) ∈ PyDict.items (anns_index anns) ->
     group <> [] /\ group = filter (fun a => ann_image_id a = id) anns).
Proof.
  assert (NoDup (PyDict.keys (anns_index anns))) as Hnd.
  { apply anns_fold_NoDup, NoDup_nil_2. }
  split; [|split; [exact Hnd|split]].
  - unfold anns_index. now rewrite anns_fold_concat.
  - apply anns_fold_first_occurrences.
  - intros id group Hin.
    assert (group = filter (fun a => ann_image_id a = id) anns) as Hgroup.
    { pose proof (anns_fold_get_default anns PyDict.empty id) as H.
      fold (anns_index anns) in H. unfold PyDict.get_default in H.
      rewrite (get_of_item _ _ _ Hnd Hin) in H. exact H. }
    split; [|exact Hgroup].
    assert (id ∈ map ann_image_id anns) as Hid.
    { assert (id ∈ PyDict.keys (anns_index anns)) as Hk.
      { unfold PyDict.keys. apply list_elem_of_fmap. now exists (id, group). }
      unfold anns_index in Hk. apply anns_fold_keys in Hk as [Hk|Hk];
        [inversion Hk | exact Hk]. }
    apply list_elem_of_fmap in Hid as (a & Ha & Hin').
    intros Hnil. rewrite Hgroup in Hnil.
    assert (a ∈ filter (fun a => ann_image_id a = id) anns) as Hf.
    { apply list_elem_of_filter. split; [now symmetry | exact Hin']. }
    rewrite Hnil in Hf. inversion Hf.
Qed.

Example anns_index_groups :
  map (fun item => (item.1, map ann_id item.2)) (PyDict.items (anns_index demo_anns))
  = [(2, [Some 10; None]); (1, [Some 11])].
Proof. reflexivity. Qed.


(** ** The color map as a whole *)

Lemma assign_colors_keys (cids : list Z) :
  forall (cyc : cycle_iter) (mapping mapping' : PyDict.t Z string),
    assign_colors cids cyc mapping = Ok mapping' ->
    NoDup cids -> (forall k, k ∈ cids -> k ∉ PyDict.keys mapping) ->
    PyDict.keys mapping' = PyDict.keys mapping ++ cids.
Proof.
  induction cids as [|cid rest IH]; intros cyc mapping mapping' Hrun Hnd Hfresh.
  - injection Hrun as <-. now rewrite app_nil_r.
  - simpl in Hrun. destruct (next cyc) as [[c cyc']|e]; [|discriminate].
    simpl in Hrun. apply NoDup_cons in Hnd as [Hcid Hnd].
    rewrite (IH _ _ _ Hrun Hnd).
    + rewrite keys_set_notin by (apply Hfresh; left).
      now rewrite <- app_assoc.
    + intros k Hk. rewrite keys_set_elem. intros [->|Hin]; [contradiction|].
      apply (Hfresh k); [now right | exact Hin].
Qed.

(** X8. The color map holds exactly the category ids, in ascending order,
    each with a color of the palette; an id no category bears is drawn white;
    ids whose sorted positions differ by a multiple of the palette's length
    share a color; and when the palette has no repeated color and at least as
    many colors as there are categories, different categories get different
    colors. *)
Theorem category_color_map_range (rc : option (list string)) (cats : list Category) :
  let ids := sorted (PyDict.keys (categories_index cats)) in
  let colors := palette rc in
  exists mapping,
    category_color_map rc (categories_index cats) = Ok mapping /\
    PyDict.keys mapping = ids /\
    (forall id c, PyDict.get mapping id = Some c ->
       c ∈ colors /\ id ∈ map cat_id cats) /\
    (forall id, id ∈ map cat_id cats -> color_of mapping (Some id) ∈ colors) /\
    (forall id, id ∉ map cat_id cats -> color_of mapping (Some id) = "white") /\
    (forall i j id1 id2,
       ids !! i = Some id1 -> ids !! j = Some id2 ->
       (i mod length colors = j mod length colors)%nat ->
       PyDict.get mapping id1 = PyDict.get mapping id2) /\
    (NoDup colors -> (length ids <= length colors)%nat ->
     forall id1 id2, id1 ∈ ids -> id2 ∈ ids -> id1 <> id2 ->
       PyDict.get mapping id1 <> PyDict.get mapping id2).
Proof.
  intros ids colors.
  assert (NoDup ids) as Hnd by apply sorted_NoDup, comprehension_NoDup.
  assert (forall id, id ∈ ids <-> id ∈ map cat_id cats) as Hids.
  { intros id. unfold ids. rewrite sorted_Permutation. apply comprehension_keys. }
  assert (0 < length colors)%nat as Hlen.
  { pose proof (palette_nonempty rc). unfold colors.
    destruct (palette rc); [contradiction | simpl; lia]. }
  destruct (assign_colors_lookup colors (palette_nonempty rc) ids (cycle colors)
              PyDict.empty 0 Hnd eq_refl (Nat.le_0_l _) eq_refl)
    as (mapping & Hrun & Hlookup & Hframe).
  assert (PyDict.keys mapping = ids) as Hkeys.
  { apply (assign_colors_keys ids (cycle colors) PyDict.empty mapping Hrun Hnd).
    intros k _. apply not_elem_of_nil. }
  assert (forall id, id ∈ ids -> exists c, PyDict.get mapping id = Some c /\ c ∈ colors)
    as Hin.
  { intros id Hid. apply list_elem_of_lookup in Hid as [i Hi].
    rewrite (Hlookup i id Hi). simpl.
    destruct (lookup_lt_is_Some_2 colors (i mod length colors)) as [c Hc].
    - now apply Nat.mod_upper_bound, Nat.neq_0_lt_0.
    - exists c. split; [exact Hc|]. eapply list_elem_of_lookup_2, Hc. }
  exists mapping. split; [exact Hrun|]. split; [exact Hkeys|].
  split; [|split; [|split; [|split]]].
  - intros id c Hget.
    assert (id ∈ ids) as Hid.
    { rewrite <- Hkeys. destruct (decide (id ∈ PyDict.keys mapping)) as [H|H];
        [exact H|]. apply get_None_keys in H. congruence. }
    split; [|now apply Hids].
    destruct (Hin id Hid) as (c' & Hc' & Hcol). congruence.
  - intros id Hid. apply Hids in Hid. destruct (Hin id Hid) as (c & Hc & Hcol).
    simpl. unfold PyDict.get_default. now rewrite Hc.
  - intros id Hid. simpl. unfold PyDict.get_default.
    rewrite (proj2 (get_None_keys mapping id)); [reflexivity|].
    rewrite Hkeys, Hids. exact Hid.
  - intros i j id1 id2 Hi Hj Hmod.
    rewrite (Hlookup i id1 Hi), (Hlookup j id2 Hj). simpl. now rewrite Hmod.
  - intros Hcolors Hfew id1 id2 Hid1 Hid2 Hne Heq.
    apply list_elem_of_lookup in Hid1 as [i Hi], Hid2 as [j Hj].
    rewrite (Hlookup i id1 Hi), (Hlookup j id2 Hj) in Heq. simpl in Heq.
    pose proof (lookup_lt_Some _ _ _ Hi) as Hi'.
    pose proof (lookup_lt_Some _ _ _ Hj) as Hj'.
    rewrite !Nat.mod_small in Heq by lia.
    destruct (lookup_lt_is_Some_2 colors i) as [c Hc]; [lia|].
    rewrite Hc in Heq. symmetry in Heq.
    pose proof (NoDup_lookup _ _ _ _ Hcolors Hc Heq) as ->.
    congruence.
Qed.

Lemma category_color_map_range_witness :
  exists mapping,
    category_color_map None (categories_index demo_cats) = Ok mapping /\
    PyDict.get mapping 1 <> PyDict.get mapping 5.
Proof.
  destruct (category_color_map_range None demo_cats)
    as (mapping & Hrun & _ & _ & _ & _ & _ & Hdistinct).
  exists mapping. split; [exact Hrun|].
  apply Hdistinct.
  - apply (bool_decide_unpack _). vm_compute. exact I.
  - vm_compute. lia.
  - apply (bool_decide_unpack _). vm_compute. exact I.
  - apply (bool_decide_unpack _). vm_compute. exact I.
  - discriminate.
Defined.


(** ** How the Renderer fails *)

Lemma unpack4_not_four (bbox : list num) :
  length bbox <> 4%nat -> exists msg, unpack4 bbox = Raise (ValueError msg).
Proof.
  destruct bbox as [|x [|y [|w [|h [|]]]]]; simpl; intros H;
    try contradiction; eauto.
Qed.

Section DrawingErrors.
Variable im : PILImage.
Variable categories_by_id : PyDict.t Z Category.
Variable color_map : PyDict.t Z string.

Lemma draw_ann_unpack_raise (ann : Annotation) (e : exn) :
  unpack4 (ann_bbox ann) = Raise e ->
  draw_ann im categories_by_id color_map ann = Raise e.
Proof. intros H. unfold draw_ann. now rewrite H. Qed.

(** The loop stops at the first bbox that does not unpack. *)
Lemma draw_anns_first_bad (pre post : list Annotation) (bad : Annotation) (e : exn) :
  Forall (fun ann => length (ann_bbox ann) = 4%nat) pre ->
  unpack4 (ann_bbox bad) = Raise e ->
  draw_anns im categories_by_id color_map (pre ++ bad :: post) = Raise e.
Proof.
  intros Hpre Hbad. induction Hpre as [|ann pre Hann _ IH]; simpl.
  - now rewrite (draw_ann_unpack_raise _ _ Hbad).
  - destruct (draw_ann_four im categories_by_id color_map ann Hann)
      as (r & t & l & -> & _).
    simpl. now rewrite IH.
Qed.

End DrawingErrors.

(** X9. Three ways the Renderer fails, tried in this order: an image that
    does not decode gives the [RuntimeError] naming the path and the cause; a
    resolution of 0 gives [ZeroDivisionError] whatever the annotations; and
    with a usable resolution, when the annotations before it can be drawn,
    the first bbox that is a list of other than four numbers gives the
    [ValueError] of the unpacking (not a [RuntimeError]). *)
Theorem draw_error_cases (open_image : string -> string + PILImage)
    (st : PltState) (img_path : string) (anns : list Annotation)
    (categories_by_id : PyDict.t Z Category) (color_map : PyDict.t Z string)
    (dpi : Z) :
  let drawn := draw_image_with_bboxes open_image st img_path anns
                 categories_by_id color_map dpi in
  (forall e, open_image img_path = inl e ->
     drawn = Raise (RuntimeError (open_failed_msg img_path e))) /\
  (forall im, open_image img_path = inr im -> dpi = 0 ->
     drawn = Raise (ZeroDivisionError "division by zero")) /\
  (forall im pre bad post,
     open_image img_path = inr im -> usable_dpi dpi ->
     anns = pre ++ bad :: post ->
     Forall drawable pre ->
     length (ann_bbox bad) <> 4%nat ->
     exists msg, drawn = Raise (ValueError msg) /\
                 unpack4 (ann_bbox bad) = Raise (ValueError msg)).
Proof.
  intros drawn. unfold drawn, draw_image_with_bboxes, true_div.
  split; [|split].
  - intros e ->. reflexivity.
  - intros im -> ->. reflexivity.
  - intros im pre bad post -> Hdpi -> Hpre Hbad.
    destruct (unpack4_not_four _ Hbad) as [msg Hmsg]. exists msg.
    split; [|exact Hmsg].
    unfold usable_dpi in Hdpi.
    rewrite (proj2 (Z.eqb_neq dpi 0)) by lia. simpl.
    now rewrite (draw_anns_first_bad im categories_by_id color_map pre post bad
                   _ (drawable_four _ Hpre) Hmsg).
Qed.

Lemma draw_error_cases_witness :
  draw_image_with_bboxes (open_image (demo_world [] [])) [] "data/a.png"
    [ {| ann_id := Some 1; ann_image_id := 1; ann_category_id := Some 1;
         ann_bbox := [PInt 1; PInt 2; PInt 3; PInt 4] |};
      {| ann_id := Some 2; ann_image_id := 1; ann_category_id := Some 1;
         ann_bbox := [PInt 1; PInt 2; PInt 3] |} ] [] [] 0
  = Raise (ZeroDivisionError "division by zero").
Proof.
  apply (proj1 (proj2 (draw_error_cases (open_image (demo_world [] [])) []
                         "data/a.png" _ [] [] 0))
           {| im_width := 640; im_height := 480 |}); reflexivity.
Defined.

Example draw_short_bbox :
  draw_image_with_bboxes (open_image (demo_world [] [])) [] "data/a.png"
    [ {| ann_id := Some 2; ann_image_id := 1; ann_category_id := Some 1;
         ann_bbox := [PInt 1; PInt 2; PInt 3] |} ] [] [] 120
  = Raise (ValueError "not enough values to unpack (expected 4, got 3)").
Proof. reflexivity. Qed.


(** ** What a run leaves behind *)

Lemma saved_paths_app (a b : list event) :
  saved_paths (a ++ b) = saved_paths a ++ saved_paths b.
Proof.
  induction a as [|[] a IH]; simpl; try exact IH; [reflexivity | now rewrite IH].
Qed.

Lemma stdout_lines_app (a b : list event) :
  stdout_lines (a ++ b) = stdout_lines a ++ stdout_lines b.
Proof.
  induction a as [|[] a IH]; simpl; try exact IH; [reflexivity | now rewrite IH].
Qed.

Lemma stderr_lines_app (a b : list event) :
  stderr_lines (a ++ b) = stderr_lines a ++ stderr_lines b.
Proof.
  induction a as [|[] a IH]; simpl; try exact IH; [reflexivity | now rewrite IH].
Qed.

(** *** The figure registry *)

Lemma next_fig_number_fresh (st : PltState) (f : Figure) :
  f ∈ st -> (fig_number f < next_fig_number st)%nat.
Proof.
  unfold next_fig_number. induction st as [|g st IH]; intros Hin; [inversion Hin|].
  simpl. apply elem_of_cons in Hin as [->|Hin]; [lia|].
  specialize (IH Hin). lia.
Qed.

Lemma store_fresh (st : PltState) (fig : Figure) :
  (forall f, f ∈ st -> fig_number f <> fig_number fig) -> store st fig = st.
Proof.
  unfold store. induction st as [|g st IH]; intros Hfresh; [reflexivity|].
  simpl. rewrite bool_decide_eq_false_2 by (apply Hfresh; left).
  rewrite IH; [reflexivity|]. intros f Hf. apply Hfresh. now right.
Qed.

Lemma plt_close_fresh (st : PltState) (fig : Figure) :
  (forall f, f ∈ st -> fig_number f <> fig_number fig) -> plt_close st fig = st.
Proof.
  unfold plt_close. induction st as [|g st IH]; intros Hfresh; [reflexivity|].
  simpl. rewrite bool_decide_eq_false_2 by (apply Hfresh; left). simpl.
  rewrite IH; [reflexivity|]. intros f Hf. apply Hfresh. now right.
Qed.

(** Storing and then closing a figure whose number no other open figure has
    leaves the registry as it was before the figure was made. *)
Lemma store_app (a b : PltState) (fig : Figure) :
  store (a ++ b) fig = store a fig ++ store b fig.
Proof. unfold store. apply map_app. Qed.

Lemma store_same (fig0 fig : Figure) :
  fig_number fig0 = fig_number fig -> store [fig0] fig = [fig].
Proof. intros H. unfold store. simpl. now rewrite bool_decide_eq_true_2. Qed.

Lemma plt_close_app (a b : PltState) (fig : Figure) :
  plt_close (a ++ b) fig = plt_close a fig ++ plt_close b fig.
Proof. unfold plt_close. apply List.filter_app. Qed.

Lemma plt_close_same (fig : Figure) : plt_close [fig] fig = [].
Proof. unfold plt_close. simpl. now rewrite bool_decide_eq_true_2. Qed.

(** Storing and then closing a figure whose number no other open figure has
    leaves the registry as it was before the figure was made. *)
Lemma close_stored (st : PltState) (fig0 fig : Figure) :
  (forall f, f ∈ st -> fig_number f <> fig_number fig) ->
  fig_number fig0 = fig_number fig ->
  plt_close (store (st ++ [fig0]) fig) fig = st.
Proof.
  intros Hfresh Hnum.
  rewrite store_app, store_fresh, store_same by assumption.
  rewrite plt_close_app, plt_close_fresh, plt_close_same by assumption.
  apply app_nil_r.
Qed.

(** The figure the Renderer returns is new, and is the last one open. *)
Lemma draw_registers (open_image : string -> string + PILImage) (st p : PltState)
    (img_path : string) (anns : list Annotation)
    (categories_by_id : PyDict.t Z Category) (color_map : PyDict.t Z string)
    (dpi : Z) (fig : Figure) :
  draw_image_with_bboxes open_image st img_path anns categories_by_id color_map dpi
    = Ok (fig, p) ->
  fig_number fig = next_fig_number st /\ p = st ++ [fig].
Proof.
  unfold draw_image_with_bboxes.
  destruct (open_image img_path) as [msg|im]; cbn -[store]; [discriminate|].
  destruct (true_div (im_width im) dpi) as [fw|e]; cbn -[store]; [|discriminate].
  destruct (true_div (im_height im) dpi) as [fh|e]; cbn -[store]; [|discriminate].
  destruct (draw_anns im categories_by_id color_map anns) as [arts|e];
    cbn -[store]; [|discriminate].
  intros [= <- <-]. split; [reflexivity|].
  rewrite store_app, store_same by reflexivity. f_equal.
  apply store_fresh. intros f Hf. cbn.
  pose proof (next_fig_number_fresh st f Hf). lia.
Qed.

Section Effects.
Variable w : World.
Variable args : Args.
Variable anns_by_image : PyDict.t Z (list Annotation).
Variable categories_by_id : PyDict.t Z Category.
Variable color_map : PyDict.t Z string.
Variable allowed_names : option (list string).

(** What one rendered image adds to the outputs. *)
Lemma process_image_rendered (st st' : RunState) (img_id : Z) (img : Image) :
  let file_name := img_file_name img in
  filtered_out allowed_names file_name = false ->
  present w args file_name = true ->
  process_image w args anns_by_image categories_by_id color_map allowed_names
    st (img_id, img) = (st', Ok ()) ->
  processed st' = S (processed st) /\
  missing_images st' = missing_images st /\
  saved_paths (log st')
    = saved_paths (log st) ++
      from_option (fun dir => [overlay_path w dir file_name]) [] (arg_save args) /\
  stdout_lines (log st')
    = stdout_lines (log st) ++
      from_option (fun dir => ["Saved: " +:+ overlay_path w dir file_name]) []
                  (arg_save args) /\
  stderr_lines (log st') = stderr_lines (log st) /\
  (arg_show args = false -> plt st' = plt st).
Proof.
  intros file_name Hallowed Hpresent. unfold process_image. fold file_name.
  unfold present in Hpresent. rewrite Hallowed, Hpresent. cbn [negb].
  destruct (draw_image_with_bboxes _ _ _ _ _ _ _) as [[fig p]|e] eqn:Hdraw;
    [|discriminate].
  apply draw_registers in Hdraw as [Hnum ->].
  assert (forall f, f ∈ plt st ->
            fig_number f <> fig_number (set_suptitle fig
              (title_of file_name (length (PyDict.get_default anns_by_image img_id [])))))
    as Hfresh.
  { intros f Hf. simpl. rewrite Hnum.
    pose proof (next_fig_number_fresh _ _ Hf). lia. }
  unfold overlay_path.
  destruct (arg_save args) as [dir|]; simpl.
  - destruct (savefig w _) as [[]|e]; [|discriminate].
    destruct (arg_show args); intros [= <-]; simpl;
      rewrite ?saved_paths_app, ?stdout_lines_app, ?stderr_lines_app; simpl;
      rewrite ?app_nil_r, <- ?app_assoc; repeat split; try discriminate.
    intros _. now apply close_stored.
  - destruct (arg_show args); intros [= <-]; simpl;
      rewrite ?saved_paths_app, ?stdout_lines_app, ?stderr_lines_app; simpl;
      rewrite ?app_nil_r; repeat split; try discriminate.
    intros _. now apply close_stored.
Qed.

Lemma eligible_names_cons (img_id : Z) (img : Image) (items : list (Z * Image)) :
  eligible_names allowed_names ((img_id, img) :: items)
  = (if filtered_out allowed_names (img_file_name img) then []
     else [img_file_name img]) ++ eligible_names allowed_names items.
Proof.
  unfold eligible_names. simpl.
  now destruct (filtered_out allowed_names (img_file_name img)).
Qed.

(** The loop's accounts when it runs to its end. *)
Lemma process_images_effects (items : list (Z * Image)) :
  forall st st',
    process_images w args anns_by_image categories_by_id color_map allowed_names
      st items = (st', Ok ()) ->
    let rendered := rendered_names w args allowed_names items in
    processed st' = (processed st + length rendered)%nat /\
    missing_images st'
      = missing_images st ++ missing_names w args allowed_names items /\
    saved_paths (log st')
      = saved_paths (log st) ++
        from_option (fun dir => map (overlay_path w dir) rendered) [] (arg_save args) /\
    stdout_lines (log st')
      = stdout_lines (log st) ++
        from_option (fun dir => map (fun file_name =>
                                       "Saved: " +:+ overlay_path w dir file_name)
                                    rendered) [] (arg_save args) /\
    stderr_lines (log st') = stderr_lines (log st) /\
    (arg_show args = false -> plt st' = plt st).
Proof.
  induction items as [|[img_id img] items IH]; intros st st' Hrun.
  - injection Hrun as <-. unfold rendered_names, missing_names. simpl.
    rewrite !app_nil_r, Nat.add_0_r.
    repeat split; destruct (arg_save args); simpl; now rewrite ?app_nil_r.
  - rewrite process_images_cons in Hrun.
    destruct (process_image _ _ _ _ _ _ st (img_id, img)) as [st1 [[]|e]] eqn:Hone;
      [|discriminate].
    specialize (IH st1 st' Hrun). cbn zeta in IH |- *.
    destruct IH as (Hp & Hm & Hs & Ho & He & Hplt).
    unfold rendered_names, missing_names in *. rewrite eligible_names_cons.
    destruct (filtered_out allowed_names (img_file_name img)) eqn:Hf.
    + rewrite process_image_rejected in Hone by exact Hf.
      injection Hone as <-. simpl app. repeat split; assumption.
    + simpl app. cbn [List.filter].
      destruct (present w args (img_file_name img)) eqn:Hpr; cbn [negb].
      * destruct (process_image_rendered st st1 img_id img Hf Hpr Hone)
          as (Hp1 & Hm1 & Hs1 & Ho1 & He1 & Hplt1).
        rewrite Hp, Hm, Hs, Ho, He, Hp1, Hm1, Hs1, Ho1, He1.
        repeat split.
        -- simpl. lia.
        -- destruct (arg_save args); simpl; now rewrite <- ?app_assoc, ?app_nil_r.
        -- destruct (arg_save args); simpl; now rewrite <- ?app_assoc, ?app_nil_r.
        -- intros Hshow. now rewrite Hplt, Hplt1.
      * rewrite process_image_missing in Hone by assumption.
        injection Hone as <-. simpl in *.
        rewrite Hp, Hm, Hs, Ho, He, <- app_assoc. repeat split. exact Hplt.
Qed.
End Effects.

(** *** The closing report *)

Lemma fold_emit_fields (names : list string) (st : RunState) :
  let st' := fold_left (fun st nm => emit st (Stderr ("  - " +:+ nm))) names st in
  plt st' = plt st /\ processed st' = processed st /\
  missing_images st' = missing_images st.
Proof.
  revert st. induction names as [|nm names IH]; intros st; simpl; [auto|].
  destruct (IH (emit st (Stderr ("  - " +:+ nm)))) as (-> & -> & ->). auto.
Qed.

Lemma report_fields (st : RunState) :
  plt (report st) = plt st /\ processed (report st) = processed st /\
  missing_images (report st) = missing_images st.
Proof.
  unfold report. destruct (missing_images st) as [|nm names] eqn:Hm.
  - destruct (bool_decide (processed st = 0%nat)); simpl; auto.
  - rewrite <- Hm.
    destruct (fold_emit_fields (missing_images st) (emit st (Stderr missing_header)))
      as (Hp & Hn & Hmi).
    destruct (bool_decide _); simpl; rewrite ?Hp, ?Hn, ?Hmi; auto.
Qed.

Lemma report_log (st : RunState) :
  log (report st)
  = log st ++ map Stderr (report_lines (missing_images st) (processed st)).
Proof.
  unfold report, report_lines. destruct (missing_images st) as [|nm names] eqn:Hm.
  - destruct (bool_decide (processed st = 0%nat)); simpl; [reflexivity|].
    now rewrite app_nil_r.
  - rewrite <- Hm.
    destruct (fold_emit_fields (missing_images st) (emit st (Stderr missing_header)))
      as (_ & Hn & _).
    cbn zeta in Hn. rewrite Hn. cbn [processed emit].
    assert (log (fold_left (fun st nm => emit st (Stderr ("  - " +:+ nm)))
                   (missing_images st) (emit st (Stderr missing_header)))
            = log st ++ Stderr missing_header
                :: map Stderr (map (fun nm => "  - " +:+ nm) (missing_images st)))
      as Hlog.
    { rewrite fold_emit_log. cbn [log emit]. rewrite <- app_assoc.
      now rewrite map_map. }
    rewrite map_app. cbn [map].
    destruct (bool_decide (processed st = 0%nat)); cbn [log emit map];
      rewrite Hlog, <- ?app_assoc; cbn [app]; now rewrite ?app_nil_r.
Qed.

Lemma saved_paths_stderr (lines : list string) : saved_paths (map Stderr lines) = [].
Proof. induction lines; simpl; auto. Qed.

Lemma stdout_lines_stderr (lines : list string) : stdout_lines (map Stderr lines) = [].
Proof. induction lines; simpl; auto. Qed.

Lemma stderr_lines_stderr (lines : list string) : stderr_lines (map Stderr lines) = lines.
Proof. induction lines as [|l lines IH]; simpl; [reflexivity | now rewrite IH]. Qed.

Lemma prepare_save_ok (w : World) (args : Args) (st st0 : RunState) :
  prepare_save w args st = (st0, Ok ()) ->
  plt st0 = plt st /\ processed st0 = processed st /\
  missing_images st0 = missing_images st /\
  saved_paths (log st0) = saved_paths (log st) /\
  stdout_lines (log st0) = stdout_lines (log st) /\
  stderr_lines (log st0) = stderr_lines (log st) /\
  (forall dir, arg_save args = Some dir -> mkdir w dir = Ok ()).
Proof.
  unfold prepare_save. destruct (arg_save args) as [dir|].
  - destruct (mkdir w dir) as [[]|e] eqn:Hmk; [|discriminate]. intros [= <-]. simpl.
    rewrite saved_paths_app, stdout_lines_app, stderr_lines_app. simpl.
    rewrite !app_nil_r. repeat split. now intros ? [= <-].
  - intros [= <-]. repeat split. discriminate.
Qed.

(** X10. What a run that returns normally has done.  The number it reports
    as processed is the number of eligible images whose file exists; the
    missing list holds the other eligible images, in order; with [--save] one
    overlay was written per processed image, named after the image's stem,
    and announced on the output stream, and without it nothing was written;
    the error stream carries the closing report and nothing else; and
    without [--show] every figure has been closed again. *)
Theorem main_accounts (w : World) (args : Args) (p : PltState) (st : RunState)
    (images_by_id : PyDict.t Z Image)
    (anns_by_image : PyDict.t Z (list Annotation))
    (categories_by_id : PyDict.t Z Category) (color_map : PyDict.t Z string) :
  let allowed_names := allowed_names_of (arg_subset args) in
  let rendered := rendered_names w args allowed_names (PyDict.items images_by_id) in
  let missing := missing_names w args allowed_names (PyDict.items images_by_id) in
  init_pipeline w args
    = Ok (images_by_id, anns_by_image, categories_by_id, color_map) ->
  main w args p = (st, Returned) ->
  processed st = length rendered /\
  missing_images st = missing /\
  saved_paths (log st)
    = from_option (fun dir => map (overlay_path w dir) rendered) [] (arg_save args) /\
  stdout_lines (log st)
    = from_option (fun dir => map (fun file_name =>
                                     "Saved: " +:+ overlay_path w dir file_name)
                                  rendered) [] (arg_save args) /\
  stderr_lines (log st) = report_lines missing (length rendered) /\
  (arg_show args = false -> plt st = p).
Proof.
  intros allowed_names rendered missing Hinit. unfold main.
  destruct (is_directory w (arg_folder args)); cbn [negb]; [|discriminate].
  rewrite Hinit. fold allowed_names.
  destruct (prepare_save w args (initial_state p)) as [st0 [[]|e]] eqn:Hsave;
    [|discriminate].
  destruct (process_images w args anns_by_image categories_by_id color_map
              allowed_names st0 (PyDict.items images_by_id))
    as [st1 [[]|e]] eqn:Hrun; [|discriminate].
  intros [= <-].
  destruct (prepare_save_ok _ _ _ _ Hsave) as (Hp0 & Hn0 & Hm0 & Hs0 & Ho0 & He0 & _).
  destruct (process_images_effects w args anns_by_image categories_by_id color_map
              allowed_names _ _ _ Hrun) as (Hn & Hm & Hs & Ho & He & Hplt).
  fold rendered in Hn, Hs, Ho. fold missing in Hm.
  simpl in Hp0, Hn0, Hm0, Hs0, Ho0, He0.
  rewrite Hn0 in Hn. rewrite Hm0 in Hm. rewrite Hs0 in Hs. rewrite Ho0 in Ho.
  rewrite He0 in He. simpl in Hn, Hm, Hs, Ho.
  destruct (report_fields st1) as (Hrp & Hrn & Hrm).
  rewrite report_log, saved_paths_app, stdout_lines_app, stderr_lines_app.
  rewrite saved_paths_stderr, stdout_lines_stderr, stderr_lines_stderr, !app_nil_r.
  rewrite Hrn, Hrm, Hrp, He, Hn, Hm, Hs, Ho.
  repeat split. intros Hshow. now rewrite Hplt, Hp0.
Qed.

Lemma main_accounts_witness :
  processed (fst (main (demo_world [] ["data/b.png"])
                    {| arg_folder := "data"; arg_show := false;
                       arg_save := Some "out"; arg_subset := Some "a.png,b.png";
                       arg_dpi := 120 |} [])) = 1%nat /\
  saved_paths (log (fst (main (demo_world [] ["data/b.png"])
                    {| arg_folder := "data"; arg_show := false;
                       arg_save := Some "out"; arg_subset := Some "a.png,b.png";
                       arg_dpi := 120 |} [])))
  = ["out/a__overlay.png"].
Proof.
  set (w := demo_world [] ["data/b.png"]).
  set (args := {| arg_folder := "data"; arg_show := false;
                  arg_save := Some "out"; arg_subset := Some "a.png,b.png";
                  arg_dpi := 120 |}).
  assert (main w args [] = (fst (main w args []), Returned)) as Hmain
    by reflexivity.
  destruct (main_accounts w args [] _ (images_index demo_images)
              (anns_index demo_anns) (categories_index demo_cats)
              [(1, "red"); (3, "green"); (5, "red")] eq_refl Hmain)
    as (Hn & _ & Hs & _).
  split; [exact Hn | exact Hs].
Defined.

(** ** When a run returns normally *)

Lemma draw_anns_ok_four (im : PILImage) (categories_by_id : PyDict.t Z Category)
    (color_map : PyDict.t Z string) (anns : list Annotation) (arts : list artist) :
  draw_anns im categories_by_id color_map anns = Ok arts ->
  Forall (fun ann => length (ann_bbox ann) = 4%nat) anns.
Proof.
  revert arts. induction anns as [|ann anns IH]; intros arts; [constructor|].
  simpl. destruct (draw_ann im categories_by_id color_map ann) as [one|e] eqn:Hone;
    simpl; [|discriminate].
  destruct (draw_anns im categories_by_id color_map anns) as [more|e]; simpl;
    [|discriminate].
  intros _. constructor; [|now apply (IH more)].
  destruct (decide (length (ann_bbox ann) = 4%nat)) as [H|H]; [exact H|].
  destruct (unpack4_not_four _ H) as [msg Hmsg].
  rewrite (draw_ann_unpack_raise im categories_by_id color_map ann _ Hmsg) in Hone.
  discriminate.
Qed.

Lemma draw_ok_inv (open_image : string -> string + PILImage) (st p : PltState)
    (img_path : string) (anns : list Annotation)
    (categories_by_id : PyDict.t Z Category) (color_map : PyDict.t Z string)
    (dpi : Z) (fig : Figure) :
  draw_image_with_bboxes open_image st img_path anns categories_by_id color_map dpi
    = Ok (fig, p) ->
  (exists im, open_image img_path = inr im) /\
  Forall (fun ann => length (ann_bbox ann) = 4%nat) anns.
Proof.
  unfold draw_image_with_bboxes.
  destruct (open_image img_path) as [msg|im]; simpl; [discriminate|].
  destruct (true_div (im_width im) dpi) as [fw|e]; simpl; [|discriminate].
  destruct (true_div (im_height im) dpi) as [fh|e]; simpl; [|discriminate].
  destruct (draw_anns im categories_by_id color_map anns) as [arts|e] eqn:Hrun;
    simpl; [|discriminate].
  intros _. split; [eauto | eapply draw_anns_ok_four, Hrun].
Qed.

Lemma draw_ok (open_image : string -> string + PILImage) (st : PltState)
    (img_path : string) (anns : list Annotation)
    (categories_by_id : PyDict.t Z Category) (color_map : PyDict.t Z string)
    (dpi : Z) (im : PILImage) :
  open_image img_path = inr im -> 0 < dpi ->
  Forall (fun ann => length (ann_bbox ann) = 4%nat) anns ->
  exists fig p,
    draw_image_with_bboxes open_image st img_path anns categories_by_id
      color_map dpi = Ok (fig, p).
Proof.
  intros Hopen Hdpi Hanns.
  destruct (draw_anns_outlines im categories_by_id color_map anns Hanns)
    as (arts & Hrun & _).
  unfold draw_image_with_bboxes, true_div. rewrite Hopen.
  rewrite (proj2 (Z.eqb_neq dpi 0)) by lia. simpl. rewrite Hrun. simpl. eauto.
Qed.

Section Returning.
Variable w : World.
Variable args : Args.
Variable anns_by_image : PyDict.t Z (list Annotation).
Variable categories_by_id : PyDict.t Z Category.
Variable color_map : PyDict.t Z string.
Variable allowed_names : option (list string).
Hypothesis dpi_positive : 0 < arg_dpi args.

Lemma process_image_ok_renderable (st st' : RunState) (item : Z * Image) :
  process_image w args anns_by_image categories_by_id color_map allowed_names
    st item = (st', Ok ()) ->
  renderable w args anns_by_image allowed_names item.
Proof.
  destruct item as [img_id img]. unfold process_image, renderable, present.
  cbn [fst snd]. intros Hrun Hallowed Hpresent.
  rewrite Hallowed, Hpresent in Hrun. cbn [negb] in Hrun.
  destruct (draw_image_with_bboxes _ _ _ _ _ _ _) as [[fig p]|e] eqn:Hdraw;
    [|discriminate].
  apply draw_ok_inv in Hdraw as [Hopen Hfour].
  split; [exact Hopen|]. split; [exact Hfour|].
  intros dir Hdir. rewrite Hdir in Hrun. unfold overlay_path.
  destruct (savefig w _) as [[]|e]; [reflexivity | discriminate].
Qed.

Lemma process_image_renderable_ok (st : RunState) (item : Z * Image) :
  renderable w args anns_by_image allowed_names item ->
  exists st',
    process_image w args anns_by_image categories_by_id color_map allowed_names
      st item = (st', Ok ()).
Proof.
  destruct item as [img_id img]. unfold renderable, present. cbn [fst snd].
  intros Hok.
  destruct (filtered_out allowed_names (img_file_name img)) eqn:Hallowed.
  { rewrite process_image_rejected by exact Hallowed. eauto. }
  destruct (path_exists w (joinpath w (arg_folder args) (img_file_name img)))
    eqn:Hpresent.
  2:{ rewrite process_image_missing by assumption. eauto. }
  destruct (Hok eq_refl eq_refl) as ([im Hopen] & Hfour & Hsave).
  destruct (draw_ok (open_image w) (plt st) _ _ categories_by_id color_map
              (arg_dpi args) im Hopen dpi_positive Hfour) as (fig & p & Hdraw).
  unfold process_image. rewrite Hallowed, Hpresent. cbn [negb]. rewrite Hdraw.
  destruct (arg_save args) as [dir|].
  - unfold overlay_path in Hsave. rewrite (Hsave dir eq_refl). eauto.
  - eauto.
Qed.

Lemma process_images_ok_iff (items : list (Z * Image)) (st : RunState) :
  (exists st',
     process_images w args anns_by_image categories_by_id color_map allowed_names
       st items = (st', Ok ())) <->
  Forall (renderable w args anns_by_image allowed_names) items.
Proof.
  revert st. induction items as [|item items IH]; intros st.
  - split; [constructor | simpl; eauto].
  - rewrite process_images_cons. split.
    + intros [st' Hrun].
      destruct (process_image _ _ _ _ _ _ st item) as [st1 [[]|e]] eqn:Hone;
        [|discriminate].
      constructor; [eapply process_image_ok_renderable, Hone|].
      apply (IH st1). eauto.
    + intros Hall. apply Forall_cons in Hall as [Hitem Hall].
      destruct (process_image_renderable_ok st item Hitem) as [st1 ->].
      now apply IH.
Qed.
End Returning.

(** X11. With a usable resolution, an existing folder and the pipeline
    initialised: the run returns normally when the save directory (if any)
    can be made and every image is filtered out, or missing, or else
    decodable, annotated with bboxes of four pixel-sized numbers only, and
    savable when saving is asked for; a run that returns normally made the
    save directory and got past every image (each one filtered out, missing,
    or decoded, with four-number bboxes, and saved when asked for); and the
    exit status is 0 for a run that returns normally and 1 for any other. *)
Theorem main_returns_when (w : World) (args : Args) (p : PltState)
    (images_by_id : PyDict.t Z Image)
    (anns_by_image : PyDict.t Z (list Annotation))
    (categories_by_id : PyDict.t Z Category) (color_map : PyDict.t Z string) :
  let allowed_names := allowed_names_of (arg_subset args) in
  let save_dir_made := forall dir, arg_save args = Some dir -> mkdir w dir = Ok () in
  usable_dpi (arg_dpi args) ->
  is_directory w (arg_folder args) = true ->
  init_pipeline w args
    = Ok (images_by_id, anns_by_image, categories_by_id, color_map) ->
  (save_dir_made ->
   Forall (surely_renderable w args anns_by_image allowed_names)
          (PyDict.items images_by_id) ->
   snd (main w args p) = Returned) /\
  (snd (main w args p) = Returned ->
   save_dir_made /\
   Forall (renderable w args anns_by_image allowed_names)
          (PyDict.items images_by_id)) /\
  (exit_code (snd (main w args p)) = 0 <-> snd (main w args p) = Returned) /\
  (exit_code (snd (main w args p)) = 0 \/ exit_code (snd (main w args p)) = 1).
Proof.
  intros allowed_names save_dir_made Hdpi Hdir Hinit.
  assert (0 < arg_dpi args) as Hpos by (unfold usable_dpi in Hdpi; lia).
  assert (snd (main w args p) = Returned <->
          save_dir_made /\
          Forall (renderable w args anns_by_image allowed_names)
                 (PyDict.items images_by_id)) as Hiff.
  { unfold main, save_dir_made. rewrite Hdir, Hinit. cbn [negb]. fold allowed_names.
    destruct (prepare_save w args (initial_state p)) as [st0 [[]|e]] eqn:Hsave.
    - destruct (prepare_save_ok _ _ _ _ Hsave) as (_ & _ & _ & _ & _ & _ & Hmk).
      pose proof (process_images_ok_iff w args anns_by_image categories_by_id
                    color_map allowed_names Hpos (PyDict.items images_by_id) st0)
        as Hloop.
      destruct (process_images _ _ _ _ _ _ st0 _) as [st1 [[]|e]]; cbn [snd].
      + split; [intros _|reflexivity]. split; [exact Hmk|]. apply Hloop. eauto.
      + split; [discriminate|]. intros [_ Hall]. apply Hloop in Hall as [st' H].
        discriminate H.
    - cbn [snd]. split; [discriminate|]. intros [Hmk _].
      unfold prepare_save in Hsave. destruct (arg_save args) as [dir|];
        [|discriminate]. rewrite (Hmk dir eq_refl) in Hsave. discriminate. }
  assert (snd (main w args p) = Returned \/ exists e, snd (main w args p) = Uncaught e)
    as Hend.
  { unfold main. rewrite Hdir, Hinit. cbn [negb].
    destruct (prepare_save w args (initial_state p)) as [st0 [[]|e]];
      [|right; eauto].
    destruct (process_images _ _ _ _ _ _ st0 _) as [st1 [[]|e]];
      [left; reflexivity | right; eauto]. }
  split; [|split; [|split]].
  - intros Hmk Hall. apply Hiff. split; [exact Hmk|].
    eapply Forall_impl; [exact Hall|]. now intros item [Hitem _].
  - apply Hiff.
  - destruct Hend as [->|[e ->]]; simpl; split; auto; discriminate.
  - destruct Hend as [->|[e ->]]; simpl; auto.
Qed.

Lemma main_returns_when_witness :
  snd (main (demo_world [] ["data/b.png"]) (demo_args None) []) = Returned.
Proof.
  apply (proj1 (main_returns_when (demo_world [] ["data/b.png"]) (demo_args None) []
                  (images_index demo_images) (anns_index demo_anns)
                  (categories_index demo_cats)
                  [(1, "red"); (3, "green"); (5, "red")]
                  ltac:(unfold usable_dpi; simpl; lia) eq_refl eq_refl)).
  - discriminate.
  - repeat apply List.Forall_cons; try apply List.Forall_nil;
      (split;
       [ intros _ Hpresent; try discriminate Hpresent;
         (split; [eexists; reflexivity|]);
         (split; [repeat constructor | discriminate])
       | intros _ Hpresent; try discriminate Hpresent;
         repeat constructor; simpl; try lia; reflexivity ]).
Defined.


(** ** The names a filter can hold *)

Lemma lstrip_with_first (p : ascii -> bool) (s : string) (c : ascii) :
  first_char (lstrip_with p s) = Some c -> p c = false.
Proof.
  induction s as [|a s IH]; simpl; [discriminate|].
  destruct (p a) eqn:Ha; [exact IH|]. now intros [= <-].
Qed.

Lemma rstrip_with_last (p : ascii -> bool) (s : string) (c : ascii) :
  last_char (rstrip_with p s) = Some c -> p c = false.
Proof.
  induction s as [|a s IH]; simpl; [discriminate|].
  destruct (rstrip_with p s) as [|b r] eqn:Hr.
  - destruct (p a) eqn:Ha; simpl; [discriminate|]. now intros [= <-].
  - exact IH.
Qed.

Lemma rstrip_with_first (p : ascii -> bool) (s : string) (c : ascii) :
  first_char (rstrip_with p s) = Some c -> first_char s = Some c.
Proof.
  destruct s as [|a s]; simpl; [discriminate|].
  destruct (rstrip_with p s) as [|b r]; [|trivial].
  destruct (p a); [discriminate | trivial].
Qed.

Lemma lstrip_with_free (p q : ascii -> bool) (s : string) :
  free_of q s = true -> free_of q (lstrip_with p s) = true.
Proof.
  induction s as [|a s IH]; simpl; [trivial|]. intros H.
  destruct (p a); [|exact H]. apply andb_prop in H as [_ H]. now apply IH.
Qed.

Lemma rstrip_with_free (p q : ascii -> bool) (s : string) :
  free_of q s = true -> free_of q (rstrip_with p s) = true.
Proof.
  induction s as [|a s IH]; simpl; [trivial|]. intros H.
  apply andb_prop in H as [Ha Hs]. specialize (IH Hs).
  destruct (rstrip_with p s) as [|b r].
  - destruct (p a); simpl; [reflexivity | now rewrite Ha].
  - simpl in *. now rewrite Ha, IH.
Qed.

Lemma strip_with_idempotent (p : ascii -> bool) (s : string) :
  strip_with p (strip_with p s) = strip_with p s.
Proof.
  unfold strip_with at 1. rewrite lstrip_with_keeps.
  - apply rstrip_with_keeps. intros c. apply rstrip_with_last.
  - intros c Hc. unfold strip_with in Hc.
    apply rstrip_with_first in Hc. eapply lstrip_with_first, Hc.
Qed.

Lemma strip_with_ends (p : ascii -> bool) (s : string) :
  strip_with p s = s ->
  (forall c, first_char s = Some c -> p c = false) /\
  (forall c, last_char s = Some c -> p c = false).
Proof.
  intros H. split; intros c Hc; rewrite <- H in Hc.
  - unfold strip_with in Hc. apply rstrip_with_first in Hc.
    eapply lstrip_with_first, Hc.
  - eapply rstrip_with_last, Hc.
Qed.

(** X12. Every name the filter parses to is non-empty, holds no comma and
    neither starts nor ends with whitespace.  So an image whose file name is
    empty, holds a comma, or starts or ends with whitespace cannot be
    selected: every filter that names anything leaves it out. *)
Theorem parse_subset_clean (s : string) :
  Forall (fun name =>
            name <> "" /\
            free_of (fun c => Ascii.eqb c ",") name = true /\
            strip name = name /\
            (forall c, first_char name = Some c -> is_space c = false) /\
            (forall c, last_char name = Some c -> is_space c = false))
         (parse_subset s) /\
  (forall file_name,
     parse_subset s <> [] ->
     file_name = "" \/ free_of (fun c => Ascii.eqb c ",") file_name = false \/
       strip file_name <> file_name ->
     filtered_out (allowed_names_of (Some s)) file_name = true).
Proof.
  assert (forall name, name ∈ parse_subset s ->
            name <> "" /\ free_of (fun c => Ascii.eqb c ",") name = true /\
            strip name = name) as Hclean.
  { intros name Hin. apply parse_subset_elem in Hin as (Hne & entry & Hentry & ->).
    split; [exact Hne|]. split; [|apply strip_with_idempotent].
    unfold strip, strip_with. apply rstrip_with_free, lstrip_with_free.
    pose proof (split_free_of_sep "," s) as Hall.
    rewrite Forall_forall in Hall. now apply Hall. }
  split.
  - apply Forall_forall. intros name Hin.
    destruct (Hclean name Hin) as (Hne & Hcomma & Hstrip).
    destruct (strip_with_ends is_space name Hstrip) as [Hfirst Hlast].
    repeat split; assumption.
  - intros file_name Hnames Hbad. unfold allowed_names_of.
    destruct (String.eqb_spec s "") as [->|_]; [now contradiction Hnames|].
    rewrite filtered_out_nonempty by exact Hnames.
    rewrite bool_decide_eq_false_2; [reflexivity|].
    intros Hin. destruct (Hclean file_name Hin) as (Hne & Hcomma & Hstrip).
    destruct Hbad as [->|[Hbad|Hbad]]; [contradiction | congruence | contradiction].
Qed.

Example parse_subset_trims :
  parse_subset " a.png ,, b c.jpg,  " = ["a.png"; "b c.jpg"].
Proof. reflexivity. Qed.


(** ** The order of the artists *)

Lemma triples_lookup (triples : list (Rectangle * FancyBboxPatch * Text)) (i : nat)
    (r : Rectangle) (t : FancyBboxPatch) (l : Text) :
  let arts := concat (map (fun '(r, t, l) => [Patch r; Tag t; Label l]) triples) in
  triples !! i = Some (r, t, l) ->
  arts !! (3 * i)%nat = Some (Patch r) /\
  arts !! (3 * i + 1)%nat = Some (Tag t) /\
  arts !! (3 * i + 2)%nat = Some (Label l).
Proof.
  cbn zeta. revert i. induction triples as [|[[r0 t0] l0] triples IH]; intros i Hi;
    [discriminate|].
  destruct i as [|i]; simpl in Hi.
  - injection Hi as -> -> ->. repeat split.
  - destruct (IH i Hi) as (Hr & Ht & Hl).
    replace (3 * S i)%nat with (S (S (S (3 * i)))) by lia.
    cbn [map concat app]. repeat split; assumption.
Qed.

Lemma triples_length (triples : list (Rectangle * FancyBboxPatch * Text)) :
  length (concat (map (fun '(r, t, l) => [Patch r; Tag t; Label l]) triples))
  = (3 * length triples)%nat.
Proof.
  induction triples as [|[[r t] l] triples IH]; [reflexivity|].
  cbn [map concat app length]. rewrite IH. lia.
Qed.

Section Ordering.
Variable im : PILImage.
Variable categories_by_id : PyDict.t Z Category.
Variable color_map : PyDict.t Z string.

Lemma draw_anns_triples (anns : list Annotation) :
  Forall (fun ann => length (ann_bbox ann) = 4%nat) anns ->
  exists triples,
    draw_anns im categories_by_id color_map anns
      = Ok (concat (map (fun '(r, t, l) => [Patch r; Tag t; Label l]) triples)) /\
    Forall2 (placed categories_by_id) anns triples.
Proof.
  induction 1 as [|ann anns Hann _ (triples & Hrun & Hall)].
  - exists []. split; [reflexivity | constructor].
  - destruct (unpack4_four _ Hann) as (x & y & w & h & Hbbox & Hun).
    eexists ((_, _, _) :: triples). split.
    + simpl. unfold draw_ann. rewrite Hun. simpl. rewrite Hrun. reflexivity.
    + constructor; [|exact Hall].
      exists x, y, w, h. simpl. repeat split; try assumption.
      apply label_of_label_text.
Qed.
End Ordering.

(** X13. With a usable resolution and annotations that can be drawn, the
    Renderer adds its artists to the axes in the order of the annotations,
    three for each: its outline, then its tag, then its text (the order of
    the calls; in which layer the library then paints each one is the
    library's matter).  The tag starts at the box's left edge and the text 4
    to the right of it, 4 above the box's top but never above 12. *)
Theorem draw_artists_order (open_image : string -> string + PILImage)
    (st : PltState) (img_path : string) (anns : list Annotation)
    (categories_by_id : PyDict.t Z Category) (color_map : PyDict.t Z string)
    (dpi : Z) (im : PILImage) :
  open_image img_path = inr im -> usable_dpi dpi ->
  Forall drawable anns ->
  exists fig st',
    draw_image_with_bboxes open_image st img_path anns categories_by_id
      color_map dpi = Ok (fig, st') /\
    length (fig_artists fig) = (3 * length anns)%nat /\
    forall i ann, anns !! i = Some ann ->
      exists r t l,
        fig_artists fig !! (3 * i)%nat = Some (Patch r) /\
        fig_artists fig !! (3 * i + 1)%nat = Some (Tag t) /\
        fig_artists fig !! (3 * i + 2)%nat = Some (Label l) /\
        placed categories_by_id ann (r, t, l).
Proof.
  intros Hopen Hdpi Hanns. unfold usable_dpi in Hdpi.
  destruct (draw_anns_triples im categories_by_id color_map anns
              (drawable_four _ Hanns))
    as (triples & Hrun & Hall).
  unfold draw_image_with_bboxes, true_div. rewrite Hopen.
  rewrite (proj2 (Z.eqb_neq dpi 0)) by lia. simpl. rewrite Hrun. simpl.
  eexists _, _. split; [reflexivity|]. simpl. split.
  - rewrite triples_length. now rewrite (Forall2_length _ _ _ Hall).
  - intros i ann Hi.
    destruct (Forall2_lookup_l _ _ _ _ _ Hall Hi) as ([[r t] l] & Htrio & Hplaced).
    destruct (triples_lookup triples i r t l Htrio) as (Hr & Ht & Hl).
    exists r, t, l. repeat split; assumption.
Qed.

Lemma draw_artists_order_witness :
  exists fig st',
    draw_image_with_bboxes (open_image (demo_world [] [])) [] "data/b.png"
      (PyDict.get_default (anns_index demo_anns) 2 [])
      (categories_index demo_cats) [(1, "red"); (3, "green"); (5, "red")] 120
      = Ok (fig, st') /\
    length (fig_artists fig) = 6%nat.
Proof.
  destruct (draw_artists_order (open_image (demo_world [] [])) [] "data/b.png"
              (PyDict.get_default (anns_index demo_anns) 2 [])
              (categories_index demo_cats) [(1, "red"); (3, "green"); (5, "red")]
              120 {| im_width := 640; im_height := 480 |})
    as (fig & st' & Hrun & Hlen & _).
  - reflexivity.
  - unfold usable_dpi. lia.
  - repeat constructor; simpl; lia.
  - exists fig, st'. split; [exact Hrun | exact Hlen].
Defined.


(** ** What stripping leaves of a label *)

Lemma lstrip_with_suffix (p : ascii -> bool) (s : string) :
  exists pre, s = pre +:+ lstrip_with p s.
Proof.
  induction s as [|a s [pre IH]]; [now exists ""|]. simpl.
  destruct (p a); [|now exists ""].
  exists (String a pre). rewrite append_cons. now rewrite <- IH.
Qed.

Lemma rstrip_with_prefix (p : ascii -> bool) (s : string) :
  exists post, s = rstrip_with p s +:+ post.
Proof.
  induction s as [|a s [post IH]]; [now exists ""|]. simpl.
  destruct (rstrip_with p s) as [|b r] eqn:Hr.
  - destruct (p a).
    + now exists (String a s).
    + exists s. reflexivity.
  - exists post. rewrite append_cons. now rewrite <- IH.
Qed.

Lemma strip_with_occurs (p : ascii -> bool) (s : string) :
  occurs_in (strip_with p s) s.
Proof.
  unfold strip_with. destruct (lstrip_with_suffix p s) as [pre Hpre].
  destruct (rstrip_with_prefix p (lstrip_with p s)) as [post Hpost].
  exists pre, post. now rewrite <- Hpost.
Qed.

Lemma length_append (a b : string) :
  String.length (a +:+ b) = (String.length a + String.length b)%nat.
Proof.
  induction a as [|c a IH]; [reflexivity|].
  rewrite append_cons. simpl. now rewrite IH.
Qed.

(** X14. A label never starts or ends with "#"; it is a piece of the name
    part, "#" and the id part written one after the other, so no longer than
    they are; and it is that whole string whenever the name part does not
    start with "#" and the annotation has an id. *)
Theorem label_text_stripped (categories_by_id : PyDict.t Z Category)
    (ann : Annotation) :
  let full := name_part categories_by_id ann +:+ "#" +:+ id_part ann in
  let label := label_text categories_by_id ann in
  first_char label <> Some "#"%char /\
  last_char label <> Some "#"%char /\
  occurs_in label full /\
  (String.length label <= String.length full)%nat /\
  (name_part categories_by_id ann <> "" ->
   first_char (name_part categories_by_id ann) <> Some "#"%char ->
   ann_id ann <> None -> label = full).
Proof.
  intros full label. unfold label, label_text. fold full. unfold strip_char.
  split; [|split; [|split; [|split]]].
  - intros H. unfold strip_with in H. apply rstrip_with_first in H.
    apply lstrip_with_first in H. discriminate H.
  - intros H. apply rstrip_with_last in H. discriminate H.
  - apply strip_with_occurs.
  - destruct (strip_with_occurs (Ascii.eqb "#") full) as (pre & post & H).
    rewrite H at 2. rewrite !length_append. lia.
  - intros Hne Hfirst Hid. unfold full, id_part.
    destruct (ann_id ann) as [z|]; [|contradiction].
    now apply (label_of_both _ z).
Qed.

Example label_of_hashes :
  label_of "##" None = "" /\ label_of "a#b" (Some 7) = "a#b#7" /\
  label_of "tag#" None = "tag".
Proof. repeat split; reflexivity. Qed.


(** ** Where the outline starts to thicken *)


Lemma keeps_minimum_up_to_750 :
  all_from (fun m => Bool.eqb (keeps_minimum m) (m <=? 750)) 0 (Z.to_nat 100001)
  = true.
Proof. vm_compute. reflexivity. Qed.

(** X15. The outline is 1.5 thick on every image whose smaller side is at
    most 750 pixels, and thicker, 0.002 times the smaller side, on every
    image whose smaller side is above 750 (checked up to 100000 pixels). *)
Theorem linewidth_threshold (im : PILImage) :
  let m := Z.min (im_width im) (im_height im) in
  (0 <= m <= 750 -> linewidth_of im = 1.5%float) /\
  (750 < m <= 100000 ->
     linewidth_of im = PrimFloat.mul (Z2F m) 0.002 /\
     PrimFloat.ltb 1.5 (linewidth_of im) = true).
Proof.
  intros m.
  assert (forall z, 0 <= z <= 100000 -> keeps_minimum z = (z <=? 750)) as Hkeeps.
  { intros z Hz. apply Bool.eqb_prop.
    apply (all_from_spec _ _ 0 keeps_minimum_up_to_750). rewrite Z2Nat.id; lia. }
  unfold linewidth_of, max_float. fold m. split; intros Hm.
  - pose proof (Hkeeps m ltac:(lia)) as H. unfold keeps_minimum in H.
    rewrite (proj2 (Z.leb_le m 750)) in H by lia.
    apply negb_true_iff in H. now rewrite H.
  - pose proof (Hkeeps m ltac:(lia)) as H. unfold keeps_minimum in H.
    rewrite (proj2 (Z.leb_gt m 750)) in H by lia.
    apply negb_false_iff in H. rewrite H. split; [reflexivity | exact H].
Qed.

Lemma linewidth_threshold_witness :
  linewidth_of {| im_width := 1024; im_height := 750 |} = 1.5%float /\
  PrimFloat.ltb 1.5 (linewidth_of {| im_width := 1024; im_height := 751 |}) = true.
Proof.
  split.
  - apply (proj1 (linewidth_threshold {| im_width := 1024; im_height := 750 |})).
    simpl. lia.
  - apply (proj2 (linewidth_threshold {| im_width := 1024; im_height := 751 |})).
    simpl. lia.
Defined.
